(** * Stratonode ground-node sender: demultiplexer, frame buffer, archival

    A shallow embedding of the parts of the repository that carry its
    algorithmic work:

    - [sender/gnss_reader.py]: the byte-stream state machine of
      [GNSSReader._process_data], its two validators and the two drain
      operations;
    - [sender/gnss_combined_service.py] and [sender/gnss_file_logger.py]:
      the two archival routines and the batch sequence counter;
    - [sender.py]: the batch sequence counter of [GroundNodeSender].

    Bytes are [Byte.byte]; a Python [bytes]/[bytearray] is a [list byte];
    a Python [str] obtained by decoding ASCII is a [string]; Python integers
    are [Z] where they are values and [nat] where they index a sequence. *)

From Stdlib Require Import ZArith List Lia Bool Ascii String.
From Stdlib Require Import Strings.Byte.
From stdpp Require Import base option list gmap strings.
From Equations Require Import Equations.
Import ListNotations.

Set Default Proof Using "Type".

(** ** Bytes and strings as Python sees them *)

Definition bytes := list byte.

Definition byte_val (b : byte) : Z := Z.of_N (Byte.to_N b).

Definition byte_eqb (a b : byte) : bool := Byte.eqb a b.

(** [ord(c)] for a character of a decoded string. *)
Definition ord (c : ascii) : Z := Z.of_N (N_of_ascii c).

(** [b.decode('ascii')]: strict, it raises [UnicodeDecodeError] (here [None])
    as soon as one byte is above 127. *)
Fixpoint decode_ascii (b : bytes) : option string :=
  match b with
  | [] => Some EmptyString
  | x :: rest =>
      if (byte_val x <? 128)%Z
      then match decode_ascii rest with
           | Some s => Some (String (ascii_of_byte x) s)
           | None => None
           end
      else None
  end.

(** Characters that [str.strip()] removes, within the ASCII range:
    TAB, LF, VT, FF, CR, FS, GS, RS, US and the space. *)
Definition py_isspace (c : ascii) : bool :=
  let n := ord c in
  ((9 <=? n) && (n <=? 13) || (28 <=? n) && (n <=? 32))%Z.

Fixpoint lstrip_by (p : ascii -> bool) (s : string) : string :=
  match s with
  | EmptyString => EmptyString
  | String c r => if p c then lstrip_by p r else s
  end.

Fixpoint rstrip_by (p : ascii -> bool) (s : string) : string :=
  match s with
  | EmptyString => EmptyString
  | String c r =>
      match rstrip_by p r with
      | EmptyString => if p c then EmptyString else String c EmptyString
      | r' => String c r'
      end
  end.

(** [s.strip()] *)
Definition strip (s : string) : string := rstrip_by py_isspace (lstrip_by py_isspace s).

(** [s.startswith(c)] for a one-character prefix. *)
Definition startswith (c : ascii) (s : string) : bool :=
  match s with
  | String d _ => Ascii.eqb d c
  | EmptyString => false
  end.

(** [c in s] *)
Fixpoint contains (c : ascii) (s : string) : bool :=
  match s with
  | EmptyString => false
  | String d r => Ascii.eqb d c || contains c r
  end.

(** [s.count(c)] *)
Fixpoint count_char (c : ascii) (s : string) : nat :=
  match s with
  | EmptyString => 0
  | String d r => (if Ascii.eqb d c then 1 else 0) + count_char c r
  end.

(** [s.split(c)] for a one-character separator: the pieces between the
    occurrences of [c], empty pieces included. *)
Fixpoint split (c : ascii) (s : string) : list string :=
  match s with
  | EmptyString => [EmptyString]
  | String d r =>
      if Ascii.eqb d c then EmptyString :: split c r
      else match split c r with
           | p :: ps => String d p :: ps
           | [] => [String d EmptyString]
           end
  end.

(** [s[:n]] *)
Fixpoint str_take (n : nat) (s : string) : string :=
  match n, s with
  | S k, String c r => String c (str_take k r)
  | _, _ => EmptyString
  end.

(** ** [base64.b64encode(msg).decode('ascii')]

    The standard alphabet with [=] padding: three bytes give four
    characters of six bits each. *)

Definition b64_alphabet : string :=
  "ABCDEFGHIJKLMNOPQRSTUVWXYZabcdefghijklmnopqrstuvwxyz0123456789+/".

Definition b64_char (n : Z) : ascii :=
  match String.get (Z.to_nat n) b64_alphabet with
  | Some c => c
  | None => "="%char
  end.

Fixpoint b64encode (msg : bytes) : string :=
  match msg with
  | [] => EmptyString
  | [a] =>
      let n := Z.shiftl (byte_val a) 16 in
      String (b64_char (Z.land (Z.shiftr n 18) 63))
        (String (b64_char (Z.land (Z.shiftr n 12) 63)) "==")
  | [a; b] =>
      let n := Z.lor (Z.shiftl (byte_val a) 16) (Z.shiftl (byte_val b) 8) in
      String (b64_char (Z.land (Z.shiftr n 18) 63))
        (String (b64_char (Z.land (Z.shiftr n 12) 63))
           (String (b64_char (Z.land (Z.shiftr n 6) 63)) "="))
  | a :: b :: c :: rest =>
      let n := Z.lor (Z.lor (Z.shiftl (byte_val a) 16) (Z.shiftl (byte_val b) 8))
                     (byte_val c) in
      String (b64_char (Z.land (Z.shiftr n 18) 63))
        (String (b64_char (Z.land (Z.shiftr n 12) 63))
           (String (b64_char (Z.land (Z.shiftr n 6) 63))
              (String (b64_char (Z.land n 63)) (b64encode rest))))
  end.

(** ** The binary (UBX) validators of [GNSSReader] *)

Module Reader.

Definition UBX_SYNC_CHAR_1 : byte := xb5.
Definition UBX_SYNC_CHAR_2 : byte := x62.

(** Safety limits and desync threshold, set once in [__init__]. *)
Definition max_nmea_line_length : nat := 512.
Definition max_ubx_message_length : Z := 2048.
Definition max_ubx_errors_before_resync : Z := 5.

(** One round of the loop of [_validate_ubx_checksum]:
    [ck_a = (ck_a + byte) & 0xFF; ck_b = (ck_b + ck_a) & 0xFF]. *)
Definition ck_step (ck : Z * Z) (b : byte) : Z * Z :=
  let ck_a := Z.land (fst ck + byte_val b) 255 in
  let ck_b := Z.land (snd ck + ck_a) 255 in
  (ck_a, ck_b).

Definition ubx_checksum (body : bytes) : Z * Z := fold_left ck_step body (0, 0)%Z.

(** [message[2:-2]] *)
Definition checked_part (message : bytes) : bytes :=
  drop 2 (take (length message - 2) message).

Definition _validate_ubx_checksum (message : bytes) : bool :=
  if length message <? 8 then false
  else
    let '(ck_a, ck_b) := ubx_checksum (checked_part message) in
    (byte_val (nth (length message - 2) message x00) =? ck_a)%Z
    && (byte_val (nth (length message - 1) message x00) =? ck_b)%Z.

(** [data[4] | (data[5] << 8)] *)
Definition length_field (data : bytes) : Z :=
  Z.lor (byte_val (nth 4 data x00)) (Z.shiftl (byte_val (nth 5 data x00)) 8).

Definition _extract_ubx_message (data : bytes) : option bytes :=
  if length data <? 8 then None
  else
    let length := length_field data in
    if (max_ubx_message_length <? length)%Z then None
    else
      let total_size := (6 + length + 2)%Z in
      if (Z.of_nat (List.length data) <? total_size)%Z then None
      else
        let message := take (Z.to_nat total_size) data in
        if negb (_validate_ubx_checksum message) then None
        else Some message.

(** ** The ASCII (NMEA) validator *)

Definition hex_digit (c : ascii) : option Z :=
  let n := ord c in
  if ((48 <=? n) && (n <=? 57))%Z then Some (n - 48)%Z
  else if ((97 <=? n) && (n <=? 102))%Z then Some (n - 87)%Z
  else if ((65 <=? n) && (n <=? 70))%Z then Some (n - 55)%Z
  else None.

(** White space that [int()] skips around the digits of an ASCII string:
    TAB, LF, VT, FF, CR and the space. *)
Definition int_isspace (c : ascii) : bool :=
  let n := ord c in ((9 <=? n) && (n <=? 13) || (n =? 32))%Z.

(** [int(s, 16)] for the strings the validator passes to it, [checksum[:2]],
    which have at most two characters.  [None] is [ValueError]: the empty
    string, a lone sign or blank, the bare prefix [0x], an underscore.  One
    digit may carry a sign or a blank before it, or a blank after it. *)
Definition int16 (s : string) : option Z :=
  match s with
  | String a EmptyString => hex_digit a
  | String a (String b EmptyString) =>
      match hex_digit a, hex_digit b with
      | Some x, Some y => Some (16 * x + y)%Z
      | Some x, None => if int_isspace b then Some x else None
      | None, Some y =>
          if int_isspace a || Ascii.eqb a "+" then Some y
          else if Ascii.eqb a "-" then Some (- y)%Z
          else None
      | None, None => None
      end
  | _ => None
  end.

(** The loop [for char in sentence: calc_checksum ^= ord(char)]. *)
Fixpoint xor_chars (calc_checksum : Z) (sentence : string) : Z :=
  match sentence with
  | EmptyString => calc_checksum
  | String char r => xor_chars (Z.lxor calc_checksum (ord char)) r
  end.

(** The [try] block unpacks [nmea_line.split('*')] into exactly two names;
    any other number of pieces raises [ValueError], and every exception
    makes the validator answer [False]. *)
Definition _validate_nmea_checksum (nmea_line : string) : bool :=
  if negb (contains "*" nmea_line) then true
  else
    match split "*" nmea_line with
    | [sentence; checksum] =>
        let sentence := lstrip_by (Ascii.eqb "$") sentence in
        let calc_checksum := xor_chars 0 sentence in
        match int16 (str_take 2 checksum) with
        | Some provided_checksum => (calc_checksum =? provided_checksum)%Z
        | None => false
        end
    | _ => false
    end.

(** ** The reader object and the loop of [_process_data] *)

(** [parsing_state] is a Python string; the constructor's comment lists the
    three values it was meant to take.  [IN_UBX] is never assigned and stands
    for the "unknown state" branch of the loop. *)
Inductive ParsingState := SEARCHING | IN_NMEA | IN_UBX.

Record GNSSReader := mkReader {
  nmea_buffer : list string;
  ubx_buffer : list bytes;
  nmea_line_buffer : bytes;
  ubx_partial_buffer : bytes;
  parsing_state : ParsingState;
  ubx_error_count : Z
}.

(** The fields [__init__] gives a new reader. *)
Definition init : GNSSReader :=
  mkReader [] [] [] [] SEARCHING 0.

Definition with_partial (v : bytes) (r : GNSSReader) : GNSSReader :=
  mkReader (nmea_buffer r) (ubx_buffer r) (nmea_line_buffer r) v
           (parsing_state r) (ubx_error_count r).

Definition with_line (v : bytes) (r : GNSSReader) : GNSSReader :=
  mkReader (nmea_buffer r) (ubx_buffer r) v (ubx_partial_buffer r)
           (parsing_state r) (ubx_error_count r).

Definition with_state (v : ParsingState) (r : GNSSReader) : GNSSReader :=
  mkReader (nmea_buffer r) (ubx_buffer r) (nmea_line_buffer r)
           (ubx_partial_buffer r) v (ubx_error_count r).

Definition with_errors (v : Z) (r : GNSSReader) : GNSSReader :=
  mkReader (nmea_buffer r) (ubx_buffer r) (nmea_line_buffer r)
           (ubx_partial_buffer r) (parsing_state r) v.

(** [self.nmea_buffer.append(line)] and [self.ubx_buffer.append(msg)] *)
Definition append_nmea (line : string) (r : GNSSReader) : GNSSReader :=
  mkReader (nmea_buffer r ++ [line]) (ubx_buffer r) (nmea_line_buffer r)
           (ubx_partial_buffer r) (parsing_state r) (ubx_error_count r).

Definition append_ubx (msg : bytes) (r : GNSSReader) : GNSSReader :=
  mkReader (nmea_buffer r) (ubx_buffer r ++ [msg]) (nmea_line_buffer r)
           (ubx_partial_buffer r) (parsing_state r) (ubx_error_count r).

(** How one pass through the body of the [while] loop ends: at the bottom or
    at a [continue], with the next index, or at the [break]. *)
Inductive Flow :=
| Continue (r : GNSSReader) (i : nat)
| Break (r : GNSSReader).

(** [data[i + 1] == UBX_SYNC_CHAR_2], guarded by [i + 1 < len(data)]. *)
Definition sync2_follows (data : bytes) (i : nat) : bool :=
  (i + 1 <? length data) && byte_eqb (nth (i + 1) data x00) UBX_SYNC_CHAR_2.

(** The end-of-line branch of the [IN_NMEA] state, up to the reset. *)
Definition finish_line (r : GNSSReader) : GNSSReader :=
  match decode_ascii (nmea_line_buffer r) with
  | Some decoded =>
      let nmea_line := strip decoded in
      if startswith "$" nmea_line && (5 <? String.length nmea_line)
      then if _validate_nmea_checksum nmea_line
           then append_nmea nmea_line r
           else r
      else r
  | None => r
  end.

(** The body of [while i < len(data)], for an [i] within [data]. *)
Definition loop_body (r : GNSSReader) (data : bytes) (i : nat) : Flow :=
  let byte := nth i data x00 in
  match parsing_state r with
  | SEARCHING =>
      if byte_eqb byte UBX_SYNC_CHAR_1 then
        if sync2_follows data i then
          let r := with_partial (drop i data) r in
          if (6 <=? length (ubx_partial_buffer r))
             && (max_ubx_message_length <? length_field (ubx_partial_buffer r))%Z
          then
            let r := with_errors (ubx_error_count r + 1) r in
            let r :=
              if (max_ubx_errors_before_resync <=? ubx_error_count r)%Z
              then with_errors 0 (with_partial [] r)
              else with_partial [] r in
            Continue r (i + 2)
          else
            (* [if ubx_msg:] holds for every message returned: it has at
               least eight bytes *)
            match _extract_ubx_message (ubx_partial_buffer r) with
            | Some ubx_msg =>
                let r := append_ubx ubx_msg r in
                let r := with_errors 0 r in
                let bytes_consumed := length ubx_msg in
                Continue (with_partial [] r) (i + bytes_consumed)
            | None => Break r
            end
        else Continue r (i + 1)
      else if byte_eqb byte x24 then
        Continue (with_line [byte] (with_state IN_NMEA r)) (i + 1)
      else Continue r (i + 1)
  | IN_NMEA =>
      let r := with_line (nmea_line_buffer r ++ [byte]) r in
      if byte_eqb byte x0a then
        Continue (with_state SEARCHING (with_line [] (finish_line r))) (i + 1)
      else if max_nmea_line_length <? length (nmea_line_buffer r) then
        Continue (with_state SEARCHING (with_line [] r)) (i + 1)
      else if byte_eqb byte UBX_SYNC_CHAR_1 && sync2_follows data i then
        Continue (with_state SEARCHING (with_line [] r)) i
      else Continue r (i + 1)
  | IN_UBX =>
      Continue (with_partial [] (with_line [] (with_state SEARCHING r))) (i + 1)
  end.

(** What is left of the loop at index [i]: two units per byte not yet
    passed, and one more while a line is open, since the mid-line sync
    branch goes back to [SEARCHING] without moving [i]. *)
Definition loop_measure (r : GNSSReader) (data : bytes) (i : nat) : nat :=
  2 * (length data - i)
  + match parsing_state r with SEARCHING => 0 | _ => 1 end.

Definition inspect {A} (a : A) : {b : A | a = b} := exist _ a eq_refl.

Equations? loop (r : GNSSReader) (data : bytes) (i : nat) : GNSSReader
  by wf (loop_measure r data i) lt :=
loop r data i with inspect (i <? length data) := {
  | exist _ false _ => r
  | exist _ true Hi with inspect (loop_body r data i) := {
      | exist _ (Break r') _ => r'
      | exist _ (Continue r' i') Hb => loop r' data i' } }.
Proof.
  apply Nat.ltb_lt in Hi.
  unfold loop_body, loop_measure in *.
  destruct (parsing_state r) eqn:Hs.
  - destruct (byte_eqb _ UBX_SYNC_CHAR_1).
    + destruct (sync2_follows data i).
      * cbn [ubx_partial_buffer with_partial] in Hb.
        destruct (_ && _).
        -- inversion Hb; subst; clear Hb.
           destruct (_ <=? _)%Z; cbn; rewrite Hs; lia.
        -- destruct (_extract_ubx_message (drop i data)) as [m|] eqn:He; [|discriminate].
           inversion Hb; subst; clear Hb. cbn. rewrite Hs.
           unfold _extract_ubx_message in He.
           destruct (length (drop i data) <? 8) eqn:H8; [discriminate|].
           destruct (_ <? _)%Z; [discriminate|].
           destruct (_ <? _)%Z eqn:Ht; [discriminate|].
           destruct (negb _); [discriminate|].
           inversion He; subst; clear He.
           apply Nat.ltb_ge in H8. apply Z.ltb_ge in Ht.
           rewrite length_take. rewrite length_drop in *.
           assert (0 <= length_field (drop i data))%Z as Hl.
           { apply Z.lor_nonneg; split; [|apply Z.shiftl_nonneg];
               unfold byte_val; lia. }
           lia.
      * inversion Hb; subst; rewrite Hs; lia.
    + destruct (byte_eqb _ x24); inversion Hb; subst; cbn; rewrite ?Hs; lia.
  - repeat match type of Hb with
           | (if ?c then _ else _) = _ => destruct c
           end; inversion Hb; subst; cbn; rewrite ?Hs; lia.
  - inversion Hb; subst; cbn; rewrite ?Hs; lia.
Qed.

(** [_process_data]: what an earlier call left pending goes in front of the
    new bytes, then the loop runs from index 0. *)
Definition _process_data (r : GNSSReader) (data : bytes) : GNSSReader :=
  match ubx_partial_buffer r with
  | [] => loop r data 0
  | _ => loop (with_partial [] r) (ubx_partial_buffer r ++ data) 0
  end.

(** The reader thread hands every chunk it reads to [_process_data]. *)
Definition feed (r : GNSSReader) (chunks : list bytes) : GNSSReader :=
  fold_left _process_data chunks r.

(** ** Draining the buffers

    Both drains run under [buffer_lock]; they copy (or encode) the two
    lists, clear them, and return the copies.  The parser's scratch state
    is not touched. *)

Definition clear_buffers (r : GNSSReader) : GNSSReader :=
  mkReader [] [] (nmea_line_buffer r) (ubx_partial_buffer r)
           (parsing_state r) (ubx_error_count r).

Definition get_buffered_data (r : GNSSReader)
  : (list string * list string) * GNSSReader :=
  let nmea_lines := nmea_buffer r in
  let ubx_base64 := map b64encode (ubx_buffer r) in
  ((nmea_lines, ubx_base64), clear_buffers r).

Definition get_buffered_data_with_raw_ubx (r : GNSSReader)
  : (list string * list string * list bytes) * GNSSReader :=
  let nmea_lines := nmea_buffer r in
  let ubx_raw := ubx_buffer r in
  let ubx_base64 := map b64encode ubx_raw in
  ((nmea_lines, ubx_base64, ubx_raw), clear_buffers r).

(** ** Statements about the reader and sample inputs *)

(** What a pass leaves behind, whichever way it ends. *)
Definition flow_reader (f : Flow) : GNSSReader :=
  match f with
  | Continue r _ => r
  | Break r => r
  end.

(** The shape of a frame whose checksum holds: the two sync bytes, the
    checksummed part (class, id, two length bytes, payload of the declared
    length), and the pair the running sums give over that part. *)
Definition frame_ok (f : bytes) : Prop :=
  exists body a b,
    f = UBX_SYNC_CHAR_1 :: UBX_SYNC_CHAR_2 :: body ++ [a; b]
    /\ ubx_checksum body = (byte_val a, byte_val b)
    /\ Z.of_nat (length body) = (4 + length_field f)%Z
    /\ _validate_ubx_checksum f = true.

(** The lenient check in words: no [*] at all, or exactly one [*] whose
    first two following characters read as the XOR of the characters
    before it, leading [$] signs left out. *)
Definition lenient_checksum_ok (s : string) : Prop :=
  contains "*" s = false
  \/ exists sentence checksum,
       split "*" s = [sentence; checksum]
       /\ int16 (str_take 2 checksum)
          = Some (xor_chars 0 (lstrip_by (Ascii.eqb "$") sentence)).

Definition record_ok (s : string) : Prop :=
  startswith "$" s = true
  /\ 5 < String.length s
  /\ _validate_nmea_checksum s = true
  /\ lenient_checksum_ok s.

(** Between two drains the buffers only grow, at their end. *)
Definition extends (r0 r : GNSSReader) : Prop :=
  (exists ns, nmea_buffer r = nmea_buffer r0 ++ ns)
  /\ (exists us, ubx_buffer r = ubx_buffer r0 ++ us).

Definition valid_frame (f : bytes) : Prop :=
  nth 0 f x00 = UBX_SYNC_CHAR_1
  /\ nth 1 f x00 = UBX_SYNC_CHAR_2
  /\ _extract_ubx_message f = Some f.

(** A pending buffer that starts with a fully staged frame whose checksum
    is wrong. *)
Definition staged_invalid (d : bytes) : Prop :=
  nth 0 d x00 = UBX_SYNC_CHAR_1
  /\ nth 1 d x00 = UBX_SYNC_CHAR_2
  /\ (length_field d <= max_ubx_message_length)%Z
  /\ (8 + length_field d <= Z.of_nat (length d))%Z
  /\ _validate_ubx_checksum (take (Z.to_nat (6 + length_field d + 2)) d) = false.

(** A header that declares 65535 bytes, alone in its chunk. *)
Definition oversized_header : bytes := [xb5; x62; x0a; x09; xff; xff].

(** The frame of the scenario in the testable properties: class [0x0A], id
    [0x09], two payload bytes, and the pair the running sums give. *)
Definition scenario_frame : bytes :=
  [xb5; x62; x0a; x09; x02; x00; xaa; xbb; x7a; x80].

(** An empty-payload frame whose pair should be [0x13 0x43], followed by a
    record that is valid on its own. *)
Definition bad_frame : bytes := [xb5; x62; x0a; x09; x00; x00; x00; x00].

Definition gga_line : bytes :=
  [x24; x47; x50; x47; x47; x41; x2c; x31; x2a; x34; x42; x0d; x0a].

End Reader.

(** ** The archival routines

    [FileLogger._compress_and_checksum] (combined service) and
    [atomic_compress_and_checksum] (file logger) act on the file system and
    on two external tools.  The file system is a finite map from paths to
    contents; each call of a primitive leaves an event in a trace, so that
    the order of the effects can be stated; what the outside world decides
    (the tools' results, an I/O error) is read from a [World]. *)

Module Archive.

Inductive exn := FileNotFoundError | CalledProcessError | OSError.

Inductive op :=
| Zstd (src dst : string)
| Sync
| Sha256sum (file : string)
| WriteFile (p : string)
| Replace (a b : string)
| Remove (p : string).

Inductive event :=
| Ok (o : op)
| Raised (o : op) (e : exn).

Record World := {
  (** is there a [zstd] executable; without it [subprocess.run] raises
      [FileNotFoundError] *)
  zstd_installed : bool;
  (** what [zstd -19] makes of a file's contents, or the error of a
      non-zero exit *)
  zstd_compress : bytes -> exn + bytes;
  (** what a failed [zstd] leaves at its output path, if anything *)
  zstd_debris : option bytes;
  (** the standard output of [sha256sum] for a file name and its contents *)
  sha256sum : string -> bytes -> exn + bytes;
  (** an error while the sidecar is opened, written, flushed or synced, and
      what is then left at its path *)
  write_fault : option exn;
  write_debris : option bytes;
  (** errors of [os.replace] and [os.remove] *)
  replace_fault : string -> string -> option exn;
  remove_fault : string -> option exn
}.

Record State := mkState {
  files : gmap string bytes;
  trace : list event
}.

(** A computation reads and changes the state and either raises or returns. *)
Definition M (A : Type) : Type := State -> State * (exn + A).

Definition ret {A} (a : A) : M A := fun s => (s, inr a).

Definition bind {A B} (m : M A) (k : A -> M B) : M B :=
  fun s => match m s with
           | (s', inr a) => k a s'
           | (s', inl e) => (s', inl e)
           end.

Notation "'let*' x ':=' m 'in' k" := (bind m (fun x => k))
  (at level 10, x name, m at level 100, k at level 200).
Notation "m '>>' k" := (bind m (fun _ => k))
  (at level 90, right associativity).

(** [try: m except exc: h] for a handler that may decline an exception. *)
Definition try_except {A} (m : M A) (h : exn -> option (M A)) : M A :=
  fun s => match m s with
           | (s', inl e) => match h e with
                            | Some k => k s'
                            | None => (s', inl e)
                            end
           | r => r
           end.

Definition emit (ev : event) (s : State) : State :=
  mkState (files s) (trace s ++ [ev]).

Definition put_file (p : string) (c : bytes) (s : State) : State :=
  mkState (<[p := c]> (files s)) (trace s).

Definition put_debris (p : string) (c : option bytes) (s : State) : State :=
  match c with
  | Some d => put_file p d s
  | None => s
  end.

Definition fail {A} (o : op) (e : exn) : M A :=
  fun s => (emit (Raised o e) s, inl e).

(** [os.path.exists(p)] *)
Definition path_exists (p : string) : M bool :=
  fun s => (s, inr (bool_decide (is_Some (files s !! p)))).

(** [subprocess.run(["zstd", "-q", "-T0", "-19", "-f", "-o", dst, src], check=True)] *)
Definition run_zstd (w : World) (src dst : string) : M unit :=
  fun s =>
    if negb (zstd_installed w) then fail (Zstd src dst) FileNotFoundError s
    else
      match files s !! src with
      | None => fail (Zstd src dst) CalledProcessError s
      | Some content =>
          match zstd_compress w content with
          | inl e => fail (Zstd src dst) e (put_debris dst (zstd_debris w) s)
          | inr z => (emit (Ok (Zstd src dst)) (put_file dst z s), inr tt)
          end
      end.

(** [os.sync()] *)
Definition os_sync : M unit := fun s => (emit (Ok Sync) s, inr tt).

(** [subprocess.run(["sha256sum", basename(f)], check=True, cwd=dirname(f),
    capture_output=True, text=True).stdout] *)
Definition run_sha256sum (w : World) (f : string) : M bytes :=
  fun s =>
    match files s !! f with
    | None => fail (Sha256sum f) CalledProcessError s
    | Some content =>
        match sha256sum w f content with
        | inl e => fail (Sha256sum f) e s
        | inr out => (emit (Ok (Sha256sum f)) s, inr out)
        end
    end.

(** [with open(p, "w") as f: f.write(text); f.flush(); os.fsync(f.fileno())] *)
Definition write_synced (w : World) (p : string) (text : bytes) : M unit :=
  fun s =>
    match write_fault w with
    | Some e => fail (WriteFile p) e (put_debris p (write_debris w) s)
    | None => (emit (Ok (WriteFile p)) (put_file p text s), inr tt)
    end.

(** [os.replace(a, b)] *)
Definition os_replace (w : World) (a b : string) : M unit :=
  fun s =>
    match replace_fault w a b with
    | Some e => fail (Replace a b) e s
    | None =>
        match files s !! a with
        | None => fail (Replace a b) FileNotFoundError s
        | Some c =>
            (emit (Ok (Replace a b))
               (mkState (<[b := c]> (delete a (files s))) (trace s)), inr tt)
        end
    end.

(** [os.remove(p)] *)
Definition os_remove (w : World) (p : string) : M unit :=
  fun s =>
    match remove_fault w p with
    | Some e => fail (Remove p) e s
    | None =>
        match files s !! p with
        | None => fail (Remove p) FileNotFoundError s
        | Some _ => (emit (Ok (Remove p)) (mkState (delete p (files s)) (trace s)), inr tt)
        end
    end.

Definition zst_tmp_of (src_path : string) : string := String.append src_path ".zst.tmp".
Definition zst_final_of (src_path : string) : string := String.append src_path ".zst".
Definition sha_final_of (src_path : string) : string := String.append src_path ".zst.sha256".
Definition sha_tmp_of (src_path : string) : string :=
  String.append (sha_final_of src_path) ".tmp".

(** The steps both routines share, from the checksum to the second rename. *)
Definition checksum_and_rename (w : World) (src_path : string) : M unit :=
  let zst_tmp := zst_tmp_of src_path in
  let zst_final := zst_final_of src_path in
  let sha_final := sha_final_of src_path in
  let* sha_out := run_sha256sum w zst_tmp in
  let sha_tmp := sha_tmp_of src_path in
  write_synced w sha_tmp sha_out >>
  os_replace w zst_tmp zst_final >>
  os_replace w sha_tmp sha_final.

(** [FileLogger._compress_and_checksum]: the whole sequence sits in one
    [try]; both handlers only log, so every exception ends the call. *)
Definition _compress_and_checksum (w : World) (src_path : string) : M unit :=
  let zst_tmp := zst_tmp_of src_path in
  let zst_final := zst_final_of src_path in
  let sha_final := sha_final_of src_path in
  let* z := path_exists zst_final in
  let* h := path_exists sha_final in
  if z && h then ret tt
  else
    let* present := path_exists src_path in
    if negb present then ret tt
    else
      try_except
        (run_zstd w src_path zst_tmp >>
         os_sync >>
         checksum_and_rename w src_path >>
         os_remove w src_path)
        (fun _ => Some (ret tt)).

(** [atomic_compress_and_checksum]: only a missing [zstd] and a source that
    is already gone are handled; any other exception leaves the function. *)
Definition atomic_compress_and_checksum (w : World) (src_path : string) : M unit :=
  let zst_tmp := zst_tmp_of src_path in
  let zst_final := zst_final_of src_path in
  let sha_final := sha_final_of src_path in
  let* z := path_exists zst_final in
  let* h := path_exists sha_final in
  if z && h then ret tt
  else
    let* compressed :=
      try_except (run_zstd w src_path zst_tmp >> ret true)
        (fun e => match e with
                  | FileNotFoundError => Some (ret false)
                  | _ => None
                  end) in
    if negb compressed then ret tt
    else
      os_sync >>
      checksum_and_rename w src_path >>
      try_except (os_remove w src_path)
        (fun e => match e with
                  | FileNotFoundError => Some (ret tt)
                  | _ => None
                  end).

(** One call of a routine on a file system, with an empty trace to start. *)
Definition run (routine : World -> string -> M unit)
    (w : World) (fs : gmap string bytes) (src_path : string) : State * (exn + unit) :=
  routine w src_path (mkState fs []).

(** ** Statements about the routines and sample worlds *)

(** What a routine must guarantee about one call, for every world, file
    system and source path:
    - a successful [os.remove] of the source comes after a successful
      rename of each artifact, and both artifacts are then in place;
    - if any step raised, the source is what it was and was not removed;
    - without a [zstd] executable the call returns and no file changed;
    - an exception leaves the routine only after a step raised it. *)
Definition archival_safe (routine : World -> string -> M unit) : Prop :=
  forall w fs src,
    let '(s', res) := run routine w fs src in
    (forall pre post,
        trace s' = pre ++ Ok (Remove src) :: post ->
        In (Ok (Replace (zst_tmp_of src) (zst_final_of src))) pre
        /\ In (Ok (Replace (sha_tmp_of src) (sha_final_of src))) pre
        /\ is_Some (files s' !! zst_final_of src)
        /\ is_Some (files s' !! sha_final_of src))
    /\ ((exists o e, In (Raised o e) (trace s')) ->
        files s' !! src = fs !! src /\ ~ In (Ok (Remove src)) (trace s'))
    /\ (zstd_installed w = false -> res = inr tt /\ files s' = fs)
    /\ (forall e, res = inl e -> exists o, In (Raised o e) (trace s')).

(** With both artifacts in place a call does nothing at all: no step runs,
    no file changes (the source included, if it is still there), and the
    call returns. *)
Definition skips_archived (routine : World -> string -> M unit) : Prop :=
  forall w fs src,
    is_Some (fs !! zst_final_of src) ->
    is_Some (fs !! sha_final_of src) ->
    run routine w fs src = (mkState fs [], inr tt).

(** After a call that went as far as removing the source, another call, in
    whatever world, leaves the file system it finds. *)
Definition second_run_is_idle (routine : World -> string -> M unit) : Prop :=
  forall w1 w2 fs src,
    let s1 := fst (run routine w1 fs src) in
    In (Ok (Remove src)) (trace s1) ->
    run routine w2 (files s1) src = (mkState (files s1) [], inr tt).

(** A world in which every step succeeds; the tools' outputs are
    stand-ins. *)
Definition calm_world : World :=
  {| zstd_installed := true;
     zstd_compress := fun content => inr (x28 :: xb5 :: x2f :: xfd :: content);
     zstd_debris := None;
     sha256sum := fun _ content => inr (x30 :: x20 :: x20 :: content);
     write_fault := None;
     write_debris := None;
     replace_fault := fun _ _ => None;
     remove_fault := fun _ => None |}.

(** The same world without the [zstd] executable. *)
Definition world_without_zstd : World :=
  {| zstd_installed := false;
     zstd_compress := zstd_compress calm_world;
     zstd_debris := None;
     sha256sum := sha256sum calm_world;
     write_fault := None;
     write_debris := None;
     replace_fault := fun _ _ => None;
     remove_fault := fun _ => None |}.

(** A world in which [zstd] runs but [sha256sum] exits with an error. *)
Definition world_with_failing_sha256sum : World :=
  {| zstd_installed := true;
     zstd_compress := zstd_compress calm_world;
     zstd_debris := None;
     sha256sum := fun _ _ => inl CalledProcessError;
     write_fault := None;
     write_debris := None;
     replace_fault := fun _ _ => None;
     remove_fault := fun _ => None |}.

Definition hour_file : string := "/data/gnss/2025/01/01/00.ubx".

Definition one_hour : gmap string bytes := {[ hour_file := [xb5; x62] ]}.

(** An hour that was archived while its source stayed behind. *)
Definition archived_hour : gmap string bytes :=
  {[ hour_file := [xb5; x62];
     zst_final_of hour_file := [x28; xb5; x2f; xfd; xb5; x62];
     sha_final_of hour_file := [x30] ]}.

End Archive.

(** ** The batch sequence counter

    [NetworkSender] (combined service) and [GroundNodeSender] (stand-alone
    sender) each keep [sequence_number] as a plain attribute that
    [__init__] sets to 0; nothing reads or writes it anywhere else than in
    the two functions below. *)

Module Sender.

(** The fields of [config] a batch uses.  Coordinates are Python floats;
    the batch copies them unchanged, so their type is left open. *)
Record Config (coord : Type) := mkConfig {
  station_id : string;
  station_name : string;
  is_reference_station : bool;
  latitude : coord;
  longitude : coord;
  antenna_height : coord
}.
Arguments mkConfig {coord}.
Arguments station_id {coord}.
Arguments station_name {coord}.
Arguments is_reference_station {coord}.
Arguments latitude {coord}.
Arguments longitude {coord}.
Arguments antenna_height {coord}.

(** The JSON object of one send cycle. [known_position] is a key of the
    dictionary only for a reference station. *)
Record Batch (coord time : Type) := mkBatch {
  b_station_id : string;
  b_station_name : string;
  batch_id : string;
  b_sequence_number : Z;
  recv_ts : time;
  nmea_raw : list string;
  ubx_raw : list string;
  b_is_reference_station : bool;
  known_position : option (coord * coord * coord)
}.
Arguments mkBatch {coord time}.
Arguments b_sequence_number {coord time}.
Arguments nmea_raw {coord time}.
Arguments ubx_raw {coord time}.
Arguments known_position {coord time}.

(** What one call gets from outside: [uuid.uuid4()], [time.time()] and, for
    a send, the result of [session.post]. *)
Inductive Response :=
| Status (status_code : Z)
| RequestException.

Record Outside (time : Type) := mkOutside {
  uuid4 : string;
  now : time;
  post : Response
}.
Arguments mkOutside {time}.
Arguments uuid4 {time}.
Arguments now {time}.
Arguments post {time}.

Section Senders.
Context {coord time : Type}.
Variable config : Config coord.

Definition build_batch (sequence_number : Z) (o : Outside time)
    (nmea_lines ubx_base64 : list string) : Batch coord time :=
  mkBatch (station_id config) (station_name config) (uuid4 o) sequence_number
          (now o) nmea_lines ubx_base64 (is_reference_station config)
          (if is_reference_station config
           then Some (latitude config, longitude config, antenna_height config)
           else None).

(** *** [NetworkSender] *)

Record NetworkSender := mkNetworkSender {
  sequence_number : Z;
  batches_sent : Z;
  batches_failed : Z
}.

(** [NetworkSender.__init__] *)
Definition NetworkSender_init : NetworkSender := mkNetworkSender 0 0 0.

(** [NetworkSender.send_batch]: the new state, the batch handed to
    [session.post] and the boolean returned. *)
Definition send_batch (s : NetworkSender) (o : Outside time)
    (nmea_lines ubx_base64 : list string)
  : NetworkSender * Batch coord time * bool :=
  let sequence_number := (sequence_number s + 1)%Z in
  let batch := build_batch sequence_number o nmea_lines ubx_base64 in
  match post o with
  | Status status_code =>
      if (status_code =? 202)%Z
      then (mkNetworkSender sequence_number (batches_sent s + 1) (batches_failed s),
            batch, true)
      else (mkNetworkSender sequence_number (batches_sent s) (batches_failed s + 1),
            batch, false)
  | RequestException =>
      (mkNetworkSender sequence_number (batches_sent s) (batches_failed s + 1),
       batch, false)
  end.

(** A process lifetime of the service: the calls of [send_batch] in order,
    each with its own inputs; the batches are collected as they are sent. *)
Fixpoint send_all (s : NetworkSender)
    (calls : list (Outside time * list string * list string))
  : NetworkSender * list (Batch coord time) :=
  match calls with
  | [] => (s, [])
  | (o, nmea_lines, ubx_base64) :: rest =>
      let '(s', batch, _) := send_batch s o nmea_lines ubx_base64 in
      let '(s'', batches) := send_all s' rest in
      (s'', batch :: batches)
  end.

(** *** [GroundNodeSender] *)

Record GroundNodeSender := mkGroundNodeSender {
  g_sequence_number : Z;
  reader : Reader.GNSSReader
}.

(** [GroundNodeSender.__init__] *)
Definition GroundNodeSender_init : GroundNodeSender :=
  mkGroundNodeSender 0 Reader.init.

(** [GroundNodeSender.create_batch] *)
Definition create_batch (g : GroundNodeSender) (o : Outside time)
  : GroundNodeSender * Batch coord time :=
  let '((nmea_lines, ubx_base64), reader) := Reader.get_buffered_data (reader g) in
  let sequence_number := (g_sequence_number g + 1)%Z in
  (mkGroundNodeSender sequence_number reader,
   build_batch sequence_number o nmea_lines ubx_base64).

(** The loop of [GroundNodeSender.run]: between two batches the reader
    thread feeds the chunks it has read. *)
Fixpoint create_all (g : GroundNodeSender)
    (cycles : list (list bytes * Outside time))
  : GroundNodeSender * list (Batch coord time) :=
  match cycles with
  | [] => (g, [])
  | (chunks, o) :: rest =>
      let g := mkGroundNodeSender (g_sequence_number g) (Reader.feed (reader g) chunks) in
      let '(g', batch) := create_batch g o in
      let '(g'', batches) := create_all g' rest in
      (g'', batch :: batches)
  end.

End Senders.

End Sender.

(** ** Further statements about the reader *)

Module ReaderMore.
Import Reader.

(** One pass of the loop over a chunk that holds the single byte [b]. *)
Definition byte_step (r : GNSSReader) (b : byte) : GNSSReader :=
  flow_reader (loop_body r [b] 0).

(** The reader with [ns] and [us] put in front of its two buffers. *)
Definition rebase (ns : list string) (us : list bytes) (r : GNSSReader) : GNSSReader :=
  mkReader (ns ++ nmea_buffer r) (us ++ ubx_buffer r) (nmea_line_buffer r)
           (ubx_partial_buffer r) (parsing_state r) (ubx_error_count r).

(** The same step on a [Flow]. *)
Definition flow_map (f : GNSSReader -> GNSSReader) (fl : Flow) : Flow :=
  match fl with
  | Continue r i => Continue (f r) i
  | Break r => Break (f r)
  end.

(** What the scratch state looks like between two passes: no line is open
    while searching; an open line starts with [$], has at most 512 bytes and
    no line feed; the state is one of the two the loop knows. *)
Definition scratch_ok (r : GNSSReader) : Prop :=
  match parsing_state r with
  | SEARCHING => nmea_line_buffer r = []
  | IN_NMEA =>
      (exists rest, nmea_line_buffer r = x24 :: rest)
      /\ length (nmea_line_buffer r) <= max_nmea_line_length
      /\ ~ In x0a (nmea_line_buffer r)
  | IN_UBX => False
  end.

(** A record of at most 512 characters, none of them a line feed. *)
Definition record_shape (s : string) : Prop :=
  String.length s <= max_nmea_line_length
  /\ contains "010" s = false.


(** ** The checksum rule as the specification words it

    To be set against [_validate_nmea_checksum], which is the code's: a
    record with no [*] is valid; otherwise the first two characters after
    the [*] are two hexadecimal digits, and the number they write is the XOR
    of the characters between the [$] the record begins with and the
    [*]. *)

(** What comes before the first [c], and what comes after it. *)
Fixpoint before_char (c : ascii) (s : string) : string :=
  match s with
  | EmptyString => EmptyString
  | String d r => if Ascii.eqb d c then EmptyString else String d (before_char c r)
  end.

Fixpoint after_char (c : ascii) (s : string) : string :=
  match s with
  | EmptyString => EmptyString
  | String d r => if Ascii.eqb d c then r else after_char c r
  end.

Definition spec_checksum_ok (s : string) : bool :=
  if contains "*" s then
    match before_char "*" s, after_char "*" s with
    | String "$" body, String h1 (String h2 _) =>
        match hex_digit h1, hex_digit h2 with
        | Some a, Some b => (16 * a + b =? xor_chars 0 body)%Z
        | _, _ => false
        end
    | _, _ => false
    end
  else true.

(** Three lines in one chunk, each ended by a line feed: [$$01*01], with a
    second [$] in front; [$AAAA*+0], with a sign in the checksum field; and
    [$ABCD*4], with a checksum field of one digit. *)
Definition lenient_lines : bytes :=
  [x24; x24; x30; x31; x2a; x30; x31; x0a;
   x24; x41; x41; x41; x41; x2a; x2b; x30; x0a;
   x24; x41; x42; x43; x44; x2a; x34; x0a].

End ReaderMore.

(** ** The receiver query tool: building and reading messages

    [query_receiver_config.py] builds poll requests and reads the answers.
    Classes and ids are Python integers there, so they are [Z] here, and
    [struct.pack] refuses a value that does not fit its field
    ([struct.error], here [None]). *)

Module Query.

Definition UBX_SYNC_1 : Z := 181.
Definition UBX_SYNC_2 : Z := 98.

(** [struct.pack('<B', n)] *)
Definition pack_B (n : Z) : option byte :=
  if ((0 <=? n) && (n <=? 255))%Z then Byte.of_N (Z.to_N n) else None.

(** [struct.pack('<H', n)]: low byte first *)
Definition pack_H (n : Z) : option bytes :=
  if ((0 <=? n) && (n <=? 65535))%Z
  then match Byte.of_N (Z.to_N (n mod 256)), Byte.of_N (Z.to_N (n / 256)) with
       | Some lo, Some hi => Some [lo; hi]
       | _, _ => None
       end
  else None.

(** [struct.unpack('<H', b)[0]] for the two bytes of [b] *)
Definition unpack_H (lo hi : byte) : Z := (byte_val lo + 256 * byte_val hi)%Z.

Definition ck_round (ck : Z * Z) (byte : Z) : Z * Z :=
  let ck_a := Z.land (fst ck + byte) 255 in
  let ck_b := Z.land (snd ck + ck_a) 255 in
  (ck_a, ck_b).

(** The loop runs over [[msg_class, msg_id] + list(payload)]: the two length
    bytes of the message are not part of it. *)
Definition calculate_checksum (msg_class msg_id : Z) (payload : bytes) : Z * Z :=
  fold_left ck_round ([msg_class; msg_id] ++ map byte_val payload) (0, 0)%Z.

Definition build_ubx_message (msg_class msg_id : Z) (payload : bytes) : option bytes :=
  let length := Z.of_nat (length payload) in
  match pack_B UBX_SYNC_1, pack_B UBX_SYNC_2, pack_B msg_class, pack_B msg_id,
        pack_H length with
  | Some s1, Some s2, Some c, Some i, Some len =>
      let msg := [s1; s2; c; i] ++ len in
      let msg := msg ++ payload in
      let '(ck_a, ck_b) := calculate_checksum msg_class msg_id payload in
      match pack_B ck_a, pack_B ck_b with
      | Some a, Some b => Some (msg ++ [a; b])
      | _, _ => None
      end
  | _, _, _, _, _ => None
  end.

(** The triple of [None] the function returns for a refusal is [None]. *)
Definition parse_ubx_response (data : bytes) : option (Z * Z * bytes) :=
  if length data <? 8 then None
  else if negb (byte_val (nth 0 data x00) =? UBX_SYNC_1)%Z
          || negb (byte_val (nth 1 data x00) =? UBX_SYNC_2)%Z then None
  else
    let msg_class := byte_val (nth 2 data x00) in
    let msg_id := byte_val (nth 3 data x00) in
    let length := unpack_H (nth 4 data x00) (nth 5 data x00) in
    if (Z.of_nat (List.length data) <? 6 + length + 2)%Z then None
    else
      let payload := take (Z.to_nat length) (drop 6 data) in
      Some (msg_class, msg_id, payload).

End Query.

(** ** The stream monitor

    [StreamMonitor.process_data] of [monitor_receiver_output.py]: a second
    reader of the same stream, which counts messages instead of keeping
    them and checks no checksum.  The device, the baud rate and the duration
    play no part in it and are left out, as is the [nmea_buffer] attribute,
    which nothing uses. *)

Module Monitor.

Record StreamMonitor := mkMonitor {
  nmea_counts : gmap (string * string) Z;
  ubx_counts : gmap (Z * Z) Z;
  ubx_sizes : gmap (Z * Z) (list Z);
  buffer : bytes
}.

(** [StreamMonitor.__init__] *)
Definition init : StreamMonitor := mkMonitor ∅ ∅ ∅ [].

(** [line.decode('ascii', errors='ignore')]: bytes above 127 are left out. *)
Fixpoint decode_ascii_ignore (b : bytes) : string :=
  match b with
  | [] => EmptyString
  | x :: rest =>
      if (byte_val x <? 128)%Z
      then String (ascii_of_byte x) (decode_ascii_ignore rest)
      else decode_ascii_ignore rest
  end.

(** [s[n:]] *)
Fixpoint str_drop (n : nat) (s : string) : string :=
  match n, s with
  | S k, String _ r => str_drop k r
  | _, _ => s
  end.

(** [counts[key] += 1] on a [defaultdict(int)] *)
Definition bump {K} `{Countable K} (key : K) (counts : gmap K Z) : gmap K Z :=
  <[key := (default 0%Z (counts !! key) + 1)%Z]> counts.

(** [sizes[key].append(x)] on a [defaultdict(list)] *)
Definition push {K} `{Countable K} (key : K) (x : Z) (sizes : gmap K (list Z))
  : gmap K (list Z) :=
  <[key := default [] (sizes !! key) ++ [x]]> sizes.

Definition parse_nmea (m : StreamMonitor) (line : bytes) : StreamMonitor :=
  let line_str := strip (decode_ascii_ignore line) in
  if startswith "$" line_str then
    let parts := split "," (str_drop 1 line_str) in
    match parts with
    | msg_id :: _ =>
        if 5 <=? String.length msg_id then
          let talker := str_take 2 msg_id in
          let sentence := str_drop 2 msg_id in
          mkMonitor (bump (talker, sentence) (nmea_counts m))
                    (ubx_counts m) (ubx_sizes m) (buffer m)
        else m
    | [] => m
    end
  else m.

Definition parse_ubx (m : StreamMonitor) (data : bytes) : StreamMonitor :=
  if length data <? 8 then m
  else
    let msg_class := byte_val (nth 2 data x00) in
    let msg_id := byte_val (nth 3 data x00) in
    let length := Query.unpack_H (nth 4 data x00) (nth 5 data x00) in
    mkMonitor (nmea_counts m)
              (bump (msg_class, msg_id) (ubx_counts m))
              (push (msg_class, msg_id) (length + 8)%Z (ubx_sizes m))
              (buffer m).

(** The position of the first [b] in [l], if there is one. *)
Fixpoint index_of (b : byte) (l : bytes) : option nat :=
  match l with
  | [] => None
  | x :: rest =>
      if Byte.eqb x b then Some 0
      else match index_of b rest with
           | Some k => Some (S k)
           | None => None
           end
  end.

(** [buf.find(bytes([b]), i)], [None] for the answer -1 *)
Definition find_from (b : byte) (buf : bytes) (i : nat) : option nat :=
  match index_of b (drop i buf) with
  | Some k => Some (i + k)
  | None => None
  end.

(** How one pass through the loop ends; a [break] changes nothing. *)
Inductive Flow :=
| Continue (m : StreamMonitor) (i : nat)
| Break.

(** The body of [while i < len(self.buffer)], for an [i] within the
    buffer. *)
Definition loop_body (m : StreamMonitor) (i : nat) : Flow :=
  let buf := buffer m in
  if (i <? length buf - 1)
     && Byte.eqb (nth i buf x00) xb5 && Byte.eqb (nth (i + 1) buf x00) x62
  then
    if i + 6 <=? length buf then
      let length := Query.unpack_H (nth (i + 4) buf x00) (nth (i + 5) buf x00) in
      let total_size := (6 + length + 2)%Z in
      if (Z.of_nat i + total_size <=? Z.of_nat (List.length buf))%Z then
        let ubx_msg := take (Z.to_nat total_size) (drop i buf) in
        Continue (parse_ubx m ubx_msg) (i + Z.to_nat total_size)
      else Break
    else Break
  else if Byte.eqb (nth i buf x00) x24 then
    match find_from x0a buf i with
    | Some end_ =>
        let nmea_line := take (end_ - i) (drop i buf) in
        Continue (parse_nmea m nmea_line) (end_ + 1)
    | None => Break
    end
  else Continue m (i + 1).

Equations? loop (m : StreamMonitor) (i : nat) : StreamMonitor * nat
  by wf (length (buffer m) - i) lt :=
loop m i with Reader.inspect (i <? length (buffer m)) := {
  | exist _ false _ => (m, i)
  | exist _ true Hi with Reader.inspect (loop_body m i) := {
      | exist _ Break _ => (m, i)
      | exist _ (Continue m' i') Hb => loop m' i' } }.
Proof.
  apply Nat.ltb_lt in Hi. unfold loop_body in Hb.
  destruct (_ && _).
  - destruct (_ <=? _); [|discriminate].
    destruct (_ <=? _)%Z eqn:Ht; [|discriminate].
    inversion Hb; subst; clear Hb. apply Z.leb_le in Ht.
    assert (Hbuf : forall d, buffer (parse_ubx m d) = buffer m).
    { intros d. unfold parse_ubx. destruct (_ <? _); reflexivity. }
    rewrite Hbuf.
    assert (0 <= Query.unpack_H (nth (i + 4) (buffer m) x00)
                   (nth (i + 5) (buffer m) x00))%Z.
    { unfold Query.unpack_H, byte_val. lia. }
    lia.
  - destruct (Byte.eqb _ x24).
    + unfold find_from in Hb.
      destruct (index_of x0a (drop i (buffer m))) as [k|] eqn:Hk; [|discriminate].
      inversion Hb; subst; clear Hb.
      assert (Hbuf : forall l, buffer (parse_nmea m l) = buffer m).
      { intros l. unfold parse_nmea. destruct (startswith _ _); [|reflexivity].
        destruct (split _ _); [reflexivity|]. destruct (_ <=? _); reflexivity. }
      rewrite Hbuf. lia.
    + inversion Hb; subst; clear Hb. lia.
Qed.

(** [process_data]: the new bytes go behind the buffer, the loop runs from
    index 0, and what it did not pass stays in the buffer. *)
Definition process_data (m : StreamMonitor) (data : bytes) : StreamMonitor :=
  let m := mkMonitor (nmea_counts m) (ubx_counts m) (ubx_sizes m) (buffer m ++ data) in
  let '(m', i) := loop m 0 in
  mkMonitor (nmea_counts m') (ubx_counts m') (ubx_sizes m') (drop i (buffer m')).

(** The monitoring loop hands every read to [process_data]. *)
Definition feed (m : StreamMonitor) (chunks : list bytes) : StreamMonitor :=
  fold_left process_data chunks m.

(** For every message kind counted there are as many recorded sizes as
    counted messages, at least one, each between 8 and 65543. *)
Definition tallies_agree (m : StreamMonitor) : Prop :=
  forall key,
    match ubx_counts m !! key, ubx_sizes m !! key with
    | None, None => True
    | Some n, Some sizes =>
        n = Z.of_nat (length sizes) /\ sizes <> []
        /\ Forall (fun s => 8 <= s <= 65543)%Z sizes
    | _, _ => False
    end.

(** What may stay in the buffer between calls: nothing; or bytes that start
    with the sync pair of a message that is not all there, either because
    its six header bytes are not, or because the buffer is shorter than the
    eight bytes around the payload plus the length the header declares; or
    bytes that start with [$] and hold no line feed. *)
Definition unfinished (buf : bytes) : Prop :=
  buf = []
  \/ ((exists rest, buf = xb5 :: x62 :: rest)
      /\ (length buf < 6
          \/ (Z.of_nat (length buf)
              < 8 + Query.unpack_H (nth 4 buf x00) (nth 5 buf x00))%Z))
  \/ (exists rest, buf = x24 :: rest /\ ~ In x0a buf).

End Monitor.

(** ** Further statements about the archival routines *)

Module ArchiveMore.
Import Archive.

(** The five paths a call for [src_path] works on. *)
Definition own_paths (src_path : string) : list string :=
  [src_path; zst_tmp_of src_path; zst_final_of src_path;
   sha_final_of src_path; sha_tmp_of src_path].

(** A call changes no file but those five. *)
Definition stays_in_footprint (routine : World -> string -> M unit) : Prop :=
  forall w fs src p,
    ~ In p (own_paths src) ->
    files (fst (run routine w fs src)) !! p = fs !! p.

(** A world in which every step of the archival of [content] succeeds,
    with [z] for the compressed bytes and [out] for what [sha256sum]
    prints. *)
Definition all_steps_succeed (w : World) (src : string) (content z out : bytes) : Prop :=
  zstd_installed w = true
  /\ zstd_compress w content = inr z
  /\ sha256sum w (zst_tmp_of src) z = inr out
  /\ write_fault w = None
  /\ replace_fault w (zst_tmp_of src) (zst_final_of src) = None
  /\ replace_fault w (sha_tmp_of src) (sha_final_of src) = None
  /\ remove_fault w src = None.

(** The seven steps of a complete archival, in order. *)
Definition full_trace (src : string) : list event :=
  [ Ok (Zstd src (zst_tmp_of src)); Ok Sync; Ok (Sha256sum (zst_tmp_of src));
    Ok (WriteFile (sha_tmp_of src));
    Ok (Replace (zst_tmp_of src) (zst_final_of src));
    Ok (Replace (sha_tmp_of src) (sha_final_of src));
    Ok (Remove src) ].

(** When every step succeeds on a source that is there and not yet fully
    archived: the seven steps run, the call returns, the artifact holds the
    compressed bytes, the sidecar what [sha256sum] printed for the temporary
    file, and the source and the two temporary files are gone. *)
Definition archives_completely (routine : World -> string -> M unit) : Prop :=
  forall w fs src content z out,
    fs !! src = Some content ->
    ~ (is_Some (fs !! zst_final_of src) /\ is_Some (fs !! sha_final_of src)) ->
    all_steps_succeed w src content z out ->
    let '(s', res) := run routine w fs src in
    res = inr tt
    /\ trace s' = full_trace src
    /\ files s' !! zst_final_of src = Some z
    /\ files s' !! sha_final_of src = Some out
    /\ files s' !! src = None
    /\ files s' !! zst_tmp_of src = None
    /\ files s' !! sha_tmp_of src = None.

(** A final name changes only through its rename, and then holds a complete
    output: the compressed bytes of the source, or the whole of what
    [sha256sum] printed; what a failed step left behind stays under a
    temporary name. *)
Definition publishes_by_rename (routine : World -> string -> M unit) : Prop :=
  forall w fs src,
    let '(s', _) := run routine w fs src in
    (files s' !! zst_final_of src <> fs !! zst_final_of src ->
     In (Ok (Replace (zst_tmp_of src) (zst_final_of src))) (trace s')
     /\ exists content z,
          fs !! src = Some content /\ zstd_compress w content = inr z
          /\ files s' !! zst_final_of src = Some z)
    /\ (files s' !! sha_final_of src <> fs !! sha_final_of src ->
        In (Ok (Replace (sha_tmp_of src) (sha_final_of src))) (trace s')
        /\ exists content z out,
             fs !! src = Some content /\ zstd_compress w content = inr z
             /\ sha256sum w (zst_tmp_of src) z = inr out
             /\ files s' !! sha_final_of src = Some out).

End ArchiveMore.

(** ** Further statements about the senders *)

Module SenderMore.
Import Sender.

(** Did [session.post] answer this call with status 202. *)
Definition accepted {time : Type} (o : Outside time) : bool :=
  match post o with
  | Status status_code => (status_code =? 202)%Z
  | RequestException => false
  end.

End SenderMore.

(** ** Rotating the previous hour

    [FileLogger._rotate_previous_hour] (combined service) and
    [rotate_previous_hour] (file logger), from the point where the two paths
    of the previous hour are known: how those paths come out of the clock is
    not modelled.  Each call of a routine meets a world of its own. *)

Module Rotation.
Import Archive.

(** The last line of [_get_paths] and of [path_for]; [base] is the day
    directory joined with the hour. *)
Definition hour_pair (base : string) : string * string :=
  (String.append base ".nmea", String.append base ".ubx").

(** [if os.path.exists(src): routine(src)] *)
Definition archive_if_present (routine : World -> string -> M unit)
    (w : World) (src : string) : M unit :=
  let* present := path_exists src in
  if present then routine w src else ret tt.

Definition _rotate_previous_hour (w_nmea w_ubx : World) (base : string) : M unit :=
  let '(prev_nmea, prev_ubx) := hour_pair base in
  archive_if_present _compress_and_checksum w_nmea prev_nmea >>
  archive_if_present _compress_and_checksum w_ubx prev_ubx.

Definition rotate_previous_hour (w_nmea w_ubx : World) (base : string) : M unit :=
  let '(prev_nmea, prev_ubx) := hour_pair base in
  archive_if_present atomic_compress_and_checksum w_nmea prev_nmea >>
  archive_if_present atomic_compress_and_checksum w_ubx prev_ubx.

(** An hour of the data directory. *)
Definition hour_base : string := "/data/gnss/2025/01/01/00".

End Rotation.

(** ** The reading loop

    [GNSSReader._read_loop]: each turn of the loop either reads data and
    hands it to [_process_data], or finds nothing waiting, or fails with an
    exception; both handlers do the same.  The list of turns ends where
    [running] becomes false or the connection is closed. *)

Module ReadLoop.
Import Reader.

Inductive Turn :=
| Data (data : bytes)
| Idle
| Failed.

Definition max_consecutive_errors : nat := 10.

(** The reader at the end of the loop, and whether the loop ended by its
    [break]. *)
Fixpoint _read_loop (r : GNSSReader) (consecutive_errors : nat)
    (turns : list Turn) : GNSSReader * bool :=
  match turns with
  | [] => (r, false)
  | Data data :: rest => _read_loop (_process_data r data) 0 rest
  | Idle :: rest => _read_loop r consecutive_errors rest
  | Failed :: rest =>
      let consecutive_errors := consecutive_errors + 1 in
      if max_consecutive_errors <=? consecutive_errors then (r, true)
      else _read_loop r consecutive_errors rest
  end.

(** The chunks read in the turns, in order. *)
Fixpoint chunks_of (turns : list Turn) : list bytes :=
  match turns with
  | [] => []
  | Data data :: rest => data :: chunks_of rest
  | _ :: rest => chunks_of rest
  end.

Fixpoint failures (turns : list Turn) : nat :=
  match turns with
  | [] => 0
  | Failed :: rest => S (failures rest)
  | _ :: rest => failures rest
  end.

Definition no_data (t : Turn) : Prop :=
  match t with
  | Data _ => False
  | _ => True
  end.

End ReadLoop.

(** * Properties of the demultiplexer *)

Section ReaderFacts.
Import Reader.

(** The loop, one pass at a time. *)
Lemma loop_unfold r data i :
  loop r data i =
  if i <? length data
  then match loop_body r data i with
       | Break r' => r'
       | Continue r' i' => loop r' data i'
       end
  else r.
Proof.
  apply (loop_elim (fun r data i res =>
    res = if i <? length data
          then match loop_body r data i with
               | Break r' => r'
               | Continue r' i' => loop r' data i'
               end
          else r)); intros.
  - rewrite e. reflexivity.
  - rewrite Hi, Hb. reflexivity.
  - rewrite Hi, e. reflexivity.
Qed.

Lemma loop_done r data i : length data <= i -> loop r data i = r.
Proof.
  intros H. rewrite loop_unfold.
  destruct (Nat.ltb_spec i (length data)); [lia | reflexivity].
Qed.

(** A property of the reader that every pass keeps is kept by the loop, by
    a call and by any sequence of calls. *)
Lemma loop_keeps (P : GNSSReader -> Prop) :
  (forall r data i, P r -> P (flow_reader (loop_body r data i))) ->
  forall r data i, P r -> P (loop r data i).
Proof.
  intros Hbody.
  apply (loop_elim (fun r data i res => P r -> P res)).
  - intros r data i e _ Hr. exact Hr.
  - intros r data i r' i' Hb Hi IH _ _ Hr. apply IH.
    specialize (Hbody r data i Hr). rewrite Hb in Hbody. exact Hbody.
  - intros r data i r' Hb Hi _ _ Hr.
    specialize (Hbody r data i Hr). rewrite Hb in Hbody. exact Hbody.
Qed.

Lemma process_keeps (P : GNSSReader -> Prop) :
  (forall r data i, P r -> P (flow_reader (loop_body r data i))) ->
  (forall r, P r -> P (with_partial [] r)) ->
  forall r data, P r -> P (_process_data r data).
Proof.
  intros Hbody Hclear r data Hr. unfold _process_data.
  destruct (ubx_partial_buffer r); apply loop_keeps; auto.
Qed.

Lemma feed_keeps (P : GNSSReader -> Prop) :
  (forall r data i, P r -> P (flow_reader (loop_body r data i))) ->
  (forall r, P r -> P (with_partial [] r)) ->
  forall chunks r, P r -> P (feed r chunks).
Proof.
  intros Hbody Hclear chunks. unfold feed.
  induction chunks as [|c chunks IH]; intros r Hr; cbn; [exact Hr|].
  apply IH, process_keeps; auto.
Qed.

(** ** Frames that reach the buffer *)

Lemma byte_val_range b : (0 <= byte_val b < 256)%Z.
Proof.
  unfold byte_val. pose proof (Byte.to_N_bounded b) as H. lia.
Qed.

Lemma length_field_nonneg data : (0 <= length_field data)%Z.
Proof.
  apply Z.lor_nonneg; split; [|apply Z.shiftl_nonneg];
    pose proof (byte_val_range (nth 4 data x00));
    pose proof (byte_val_range (nth 5 data x00)); lia.
Qed.

Lemma byte_eqb_eq a b : byte_eqb a b = true <-> a = b.
Proof.
  unfold byte_eqb. split.
  - apply Byte.byte_dec_bl.
  - apply Byte.byte_dec_lb.
Qed.

Lemma nth_take_lt (l : bytes) n k d : k < n -> nth k (take n l) d = nth k l d.
Proof.
  revert n k. induction l as [|x l IH]; intros n k H.
  - destruct n; reflexivity.
  - destruct n; [lia|]. destruct k; cbn; [reflexivity|]. apply IH. lia.
Qed.

Lemma nth_drop (l : bytes) n k d : nth k (drop n l) d = nth (n + k) l d.
Proof.
  revert n. induction l as [|x l IH]; intros n.
  - destruct n, k; reflexivity.
  - destruct n; cbn; [reflexivity|]. apply IH.
Qed.

(** A sequence of at least four bytes is its first two bytes, the part
    [message[2:-2]] and its last two bytes. *)
Lemma split_ends (m : bytes) :
  4 <= length m ->
  m = nth 0 m x00 :: nth 1 m x00 :: checked_part m
        ++ [nth (length m - 2) m x00; nth (length m - 1) m x00].
Proof.
  intros H. unfold checked_part.
  destruct m as [|x0 [|x1 m]]; cbn in H; try lia.
  cbn [nth]. f_equal. f_equal.
  replace (length (x0 :: x1 :: m) - 2) with (length m) by (cbn; lia).
  replace (length (x0 :: x1 :: m) - 1) with (S (length m)) by (cbn; lia).
  destruct (length m) as [|[|n]] eqn:Hn; try lia.
  cbn [take drop nth].
  assert (Hd : drop n m = [nth n m x00; nth (S n) m x00]).
  { clear H. revert n Hn. induction m as [|y m IH]; intros n Hn; cbn in Hn; [lia|].
    destruct n as [|n].
    - destruct m as [|z [|? ?]]; cbn in Hn; try lia. reflexivity.
    - cbn. apply IH. lia. }
  rewrite <- Hd. symmetry. apply take_drop.
Qed.

Lemma extract_some data m :
  _extract_ubx_message data = Some m ->
  m = take (length m) data
  /\ Z.of_nat (length m) = (8 + length_field data)%Z
  /\ length m <= length data
  /\ _validate_ubx_checksum m = true.
Proof.
  unfold _extract_ubx_message. intros H.
  destruct (length data <? 8) eqn:H8; [discriminate|].
  destruct (_ <? _)%Z; [discriminate|].
  destruct (_ <? _)%Z eqn:Ht; [discriminate|].
  destruct (_validate_ubx_checksum _) eqn:Hv; [|discriminate].
  cbn in H. inversion H; subst; clear H.
  apply Z.ltb_ge in Ht. pose proof (length_field_nonneg data).
  assert (Hlen : length (take (Z.to_nat (6 + length_field data + 2)) data)
                 = Z.to_nat (6 + length_field data + 2)).
  { rewrite length_take. lia. }
  rewrite Hlen. repeat split; auto; lia.
Qed.

Lemma extract_frame_ok data m :
  nth 0 data x00 = UBX_SYNC_CHAR_1 ->
  nth 1 data x00 = UBX_SYNC_CHAR_2 ->
  _extract_ubx_message data = Some m ->
  frame_ok m.
Proof.
  intros H0 H1 He. apply extract_some in He as (Hm & Hlen & Hle & Hv).
  pose proof (length_field_nonneg data) as Hnn.
  assert (H8 : 8 <= length m) by lia.
  assert (Hf : length_field m = length_field data).
  { unfold length_field. rewrite Hm, !nth_take_lt by lia. reflexivity. }
  exists (checked_part m), (nth (length m - 2) m x00), (nth (length m - 1) m x00).
  repeat split.
  - rewrite (split_ends m) at 1 by lia.
    rewrite Hm at 1 2. rewrite !nth_take_lt by lia. congruence.
  - unfold _validate_ubx_checksum in Hv.
    destruct (Nat.ltb_spec (length m) 8); [lia|].
    destruct (ubx_checksum (checked_part m)) as [ck_a ck_b].
    apply andb_true_iff in Hv as [Ha Hb].
    apply Z.eqb_eq in Ha, Hb. congruence.
  - unfold checked_part. rewrite length_drop, length_take. lia.
  - exact Hv.
Qed.

(** Every pass keeps the frames in the buffer well-formed. *)
Lemma body_keeps_frames r data i :
  Forall frame_ok (ubx_buffer r) ->
  Forall frame_ok (ubx_buffer (flow_reader (loop_body r data i))).
Proof.
  intros H. unfold loop_body.
  destruct (parsing_state r).
  - destruct (byte_eqb _ UBX_SYNC_CHAR_1) eqn:Hb1.
    + destruct (sync2_follows data i) eqn:Hb2.
      * cbn [ubx_partial_buffer with_partial].
        destruct (_ && _).
        -- destruct (_ <=? _)%Z; exact H.
        -- destruct (_extract_ubx_message (drop i data)) as [m|] eqn:He; [|exact H].
           cbn. apply Forall_app; split; [exact H|].
           constructor; [|constructor].
           apply byte_eqb_eq in Hb1.
           unfold sync2_follows in Hb2. apply andb_true_iff in Hb2 as [_ Hb2].
           apply byte_eqb_eq in Hb2.
           eapply extract_frame_ok; [| |exact He]; rewrite nth_drop.
           ++ rewrite Nat.add_0_r. exact Hb1.
           ++ exact Hb2.
      * exact H.
    + destruct (byte_eqb _ x24); exact H.
  - cbn [nmea_line_buffer with_line].
    destruct (byte_eqb _ x0a).
    + cbn. unfold finish_line.
      destruct (decode_ascii _); [|exact H].
      destruct (_ && _); [|exact H].
      destruct (_validate_nmea_checksum _); exact H.
    + destruct (_ <? _); [exact H|].
      destruct (_ && _); exact H.
  - exact H.
Qed.

(** C3. Whatever bytes arrive and however they are cut into chunks, every
    frame in the binary buffer has the two sync bytes, then a checksummed
    part of four header bytes and the declared number of payload bytes, then
    exactly the pair that the running sums [ck_a += byte; ck_b += ck_a]
    (mod 256) give over that part; it passes [_validate_ubx_checksum]. *)
Theorem emitted_frames_pass_checksum (chunks : list bytes) :
  Forall frame_ok (ubx_buffer (feed init chunks)).
Proof.
  apply feed_keeps.
  - apply body_keeps_frames.
  - intros r H. exact H.
  - constructor.
Qed.

(** ** Records that reach the buffer *)

Lemma validate_nmea_true s :
  _validate_nmea_checksum s = true <-> lenient_checksum_ok s.
Proof.
  unfold _validate_nmea_checksum, lenient_checksum_ok.
  destruct (contains "*" s) eqn:Hc; cbn.
  - split.
    + intros H. right.
      destruct (split "*" s) as [|sentence [|checksum [|? ?]]]; try discriminate.
      exists sentence, checksum. split; [reflexivity|].
      destruct (int16 _) as [v|]; [|discriminate].
      apply Z.eqb_eq in H. congruence.
    + intros [H|(sentence & checksum & Hs & Hi)]; [discriminate|].
      rewrite Hs, Hi. apply Z.eqb_refl.
  - split; auto.
Qed.

Lemma body_keeps_records r data i :
  Forall record_ok (nmea_buffer r) ->
  Forall record_ok (nmea_buffer (flow_reader (loop_body r data i))).
Proof.
  intros H. unfold loop_body.
  destruct (parsing_state r).
  - destruct (byte_eqb _ UBX_SYNC_CHAR_1).
    + destruct (sync2_follows data i); [|exact H].
      cbn [ubx_partial_buffer with_partial].
      destruct (_ && _).
      * destruct (_ <=? _)%Z; exact H.
      * destruct (_extract_ubx_message _); exact H.
    + destruct (byte_eqb _ x24); exact H.
  - cbn [nmea_line_buffer with_line].
    destruct (byte_eqb _ x0a).
    + cbn. unfold finish_line.
      destruct (decode_ascii _) as [decoded|]; [|exact H].
      destruct (_ && _) eqn:Hchk; [|exact H].
      destruct (_validate_nmea_checksum _) eqn:Hv; [|exact H].
      cbn. apply Forall_app; split; [exact H|].
      constructor; [|constructor].
      apply andb_true_iff in Hchk as [Hs Hl]. apply Nat.ltb_lt in Hl.
      repeat split; auto. apply validate_nmea_true. exact Hv.
    + destruct (_ <? _); [exact H|].
      destruct (_ && _); exact H.
  - exact H.
Qed.

(** C5, as amended. Whatever bytes arrive and however they are cut into
    chunks, every record in the ASCII buffer starts with [$], is longer than
    five characters once stripped, and passes the check as the code makes
    it: it has no [*], or it has exactly one [*], and what [int(.., 16)]
    reads from the first two characters after it is the XOR of the
    characters before it with every leading [$] left out. *)
Theorem emitted_records_are_valid (chunks : list bytes) :
  Forall record_ok (nmea_buffer (feed init chunks)).
Proof.
  apply feed_keeps.
  - apply body_keeps_records.
  - intros r H. exact H.
  - constructor.
Qed.

(** C5, as first stated, fails. Three records reach the buffer that the rule
    in the specification's words turns down.  In [$$01*01] the characters
    between the first [$] and the [*] are [$01], whose XOR is 0x25, not
    0x01: the code leaves out both [$].  In [$AAAA*+0] and [$ABCD*4] the
    [*] is not followed by two hexadecimal digits: [int] takes a sign, and
    a single digit. *)
Lemma lenient_records_are_emitted :
  nmea_buffer (feed init [ReaderMore.lenient_lines])
  = ["$$01*01"; "$AAAA*+0"; "$ABCD*4"]%string
  /\ ReaderMore.spec_checksum_ok "$$01*01" = false
  /\ ReaderMore.spec_checksum_ok "$AAAA*+0" = false
  /\ ReaderMore.spec_checksum_ok "$ABCD*4" = false
  /\ xor_chars 0 "$01" = 37%Z.
Proof. repeat split; vm_compute; reflexivity. Qed.

(** ** Oversized length fields *)

(** C4. In [SEARCHING], at a sync pair with at least four more bytes whose
    length field is above the bound, one pass emits nothing, moves on by
    exactly two bytes, stays in [SEARCHING] with an empty pending buffer, and
    counts one more error; when that count reaches the threshold it is set
    back to zero instead.  The loop goes on in the same chunk from there. *)
Theorem oversized_length_resyncs r data i :
  parsing_state r = SEARCHING ->
  nth i data x00 = UBX_SYNC_CHAR_1 ->
  nth (i + 1) data x00 = UBX_SYNC_CHAR_2 ->
  i + 6 <= length data ->
  (max_ubx_message_length < length_field (drop i data))%Z ->
  let count := (ubx_error_count r + 1)%Z in
  let r' := mkReader (nmea_buffer r) (ubx_buffer r) (nmea_line_buffer r) []
                     SEARCHING
                     (if (count <? max_ubx_errors_before_resync)%Z
                      then count else 0%Z) in
  loop_body r data i = Continue r' (i + 2)
  /\ loop r data i = loop r' data (i + 2).
Proof.
  intros Hs H1 H2 Hlen Hbig count r'.
  assert (Hb : loop_body r data i = Continue r' (i + 2)).
  { unfold loop_body. rewrite Hs, H1.
    replace (byte_eqb UBX_SYNC_CHAR_1 UBX_SYNC_CHAR_1) with true by reflexivity.
    unfold sync2_follows. rewrite H2.
    destruct (Nat.ltb_spec (i + 1) (length data)); [|lia].
    replace (byte_eqb UBX_SYNC_CHAR_2 UBX_SYNC_CHAR_2) with true by reflexivity.
    cbn [andb ubx_partial_buffer with_partial].
    destruct (Nat.leb_spec 6 (length (drop i data))) as [_|Hd];
      [|rewrite length_drop in Hd; lia].
    destruct (Z.ltb_spec max_ubx_message_length (length_field (drop i data)));
      [|lia].
    cbn [andb ubx_error_count with_errors]. f_equal.
    unfold r', count, with_errors, with_partial; cbn. rewrite Hs.
    unfold max_ubx_errors_before_resync.
    destruct (Z.leb_spec 5 (ubx_error_count r + 1));
      destruct (Z.ltb_spec (ubx_error_count r + 1) 5); try lia; reflexivity. }
  split; [exact Hb|].
  rewrite (loop_unfold r), Hb.
  destruct (Nat.ltb_spec i (length data)); [reflexivity|lia].
Qed.

Lemma oversized_length_resyncs_witness :
  loop_body init oversized_header 0
  = Continue (mkReader [] [] [] [] SEARCHING 1) 2
  /\ loop init oversized_header 0
     = loop (mkReader [] [] [] [] SEARCHING 1) oversized_header 2.
Proof.
  apply (oversized_length_resyncs init oversized_header 0);
    try reflexivity; cbn; lia.
Defined.

(** Four such headers in a row leave a count of four, the fifth clears it. *)
Example four_oversized_headers :
  ubx_error_count
    (_process_data init (concat (repeat oversized_header 4))) = 4%Z.
Proof. vm_compute. reflexivity. Qed.

Example five_oversized_headers :
  _process_data init (concat (repeat oversized_header 5)) = init.
Proof. vm_compute. reflexivity. Qed.

(** ** More than one asterisk *)

Lemma split_length c s : length (split c s) = S (count_char c s).
Proof.
  induction s as [|d s IH]; cbn; [reflexivity|].
  destruct (Ascii.eqb d c); cbn.
  - rewrite IH. reflexivity.
  - destruct (split c s); cbn in *; lia.
Qed.

Lemma contains_count c s : contains c s = true <-> 1 <= count_char c s.
Proof.
  induction s as [|d s IH]; cbn.
  - split; [discriminate|lia].
  - destruct (Ascii.eqb d c); cbn; [split; [lia|reflexivity]|exact IH].
Qed.

(** C10. A line with two or more [*] is rejected, whatever the text before
    the first [*] and the digits after it are: the unpacking of the split
    into two names fails.  Acceptance without a check is for lines with no
    [*] only. *)
Theorem two_asterisks_rejected (nmea_line : string) :
  2 <= count_char "*" nmea_line ->
  _validate_nmea_checksum nmea_line = false.
Proof.
  intros H. unfold _validate_nmea_checksum.
  assert (Hc : contains "*" nmea_line = true) by (apply contains_count; lia).
  rewrite Hc. cbn.
  pose proof (split_length "*" nmea_line) as Hl.
  destruct (split "*" nmea_line) as [|a [|b [|c l]]]; cbn in Hl;
    [lia | lia | lia | reflexivity].
Qed.

Lemma two_asterisks_rejected_witness :
  _validate_nmea_checksum "$GPGGA,1*4B*4B" = false.
Proof.
  apply two_asterisks_rejected. cbn. lia.
Defined.

(** The same text with one [*], and with none, is accepted. *)
Example one_asterisk_accepted : _validate_nmea_checksum "$GPGGA,1*4B" = true.
Proof. reflexivity. Qed.

(** What [int(checksum[:2], 16)] makes of some two-character strings. *)
Example int16_examples :
  int16 "4B" = Some 75%Z /\ int16 "fF" = Some 255%Z /\ int16 "7" = Some 7%Z
  /\ int16 " 1" = Some 1%Z /\ int16 "1 " = Some 1%Z /\ int16 "+1" = Some 1%Z
  /\ int16 "-1" = Some (-1)%Z /\ int16 "0x" = None /\ int16 "1_" = None
  /\ int16 "" = None /\ int16 "  " = None /\ int16 "G0" = None.
Proof. repeat split. Qed.

Example no_asterisk_accepted s :
  contains "*" s = false -> _validate_nmea_checksum s = true.
Proof. intros H. unfold _validate_nmea_checksum. rewrite H. reflexivity. Qed.

(** ** Draining *)

Lemma body_extends r0 r data i :
  extends r0 r -> extends r0 (flow_reader (loop_body r data i)).
Proof.
  intros H. unfold loop_body.
  destruct (parsing_state r).
  - destruct (byte_eqb _ UBX_SYNC_CHAR_1).
    + destruct (sync2_follows data i); [|exact H].
      cbn [ubx_partial_buffer with_partial].
      destruct (_ && _).
      * destruct (_ <=? _)%Z; exact H.
      * destruct (_extract_ubx_message _) as [m|]; [|exact H].
        destruct H as [Hn [us Hu]]. split; [exact Hn|].
        exists (us ++ [m]). cbn. rewrite Hu, app_assoc. reflexivity.
    + destruct (byte_eqb _ x24); exact H.
  - cbn [nmea_line_buffer with_line].
    destruct (byte_eqb _ x0a).
    + cbn. unfold finish_line.
      destruct (decode_ascii _) as [decoded|]; [|exact H].
      destruct (_ && _); [|exact H].
      destruct (_validate_nmea_checksum _); [|exact H].
      destruct H as [[ns Hn] Hu]. split; [|exact Hu].
      exists (ns ++ [strip decoded]). cbn. rewrite Hn, app_assoc. reflexivity.
    + destruct (_ <? _); [exact H|].
      destruct (_ && _); exact H.
  - exact H.
Qed.

Lemma feed_extends r chunks : extends r (feed r chunks).
Proof.
  apply (feed_keeps (extends r)).
  - apply body_extends.
  - intros r' H. exact H.
  - split; exists []; rewrite app_nil_r; reflexivity.
Qed.

(** C6. A drain returns the whole of both buffers, in the order of the
    lists, and leaves both empty; the base64 strings are the encodings of
    the raw frames, position by position; the two-result drain returns the
    same records and the same strings.  Whatever is fed afterwards lands
    behind what is already buffered. *)
Theorem drain_returns_everything (r : GNSSReader) :
  let '((nmea_lines, ubx_base64, ubx_raw), r') := get_buffered_data_with_raw_ubx r in
  nmea_lines = nmea_buffer r
  /\ ubx_raw = ubx_buffer r
  /\ length ubx_base64 = length ubx_raw
  /\ (forall i, ubx_base64 !! i = b64encode <$> (ubx_raw !! i))
  /\ nmea_buffer r' = [] /\ ubx_buffer r' = []
  /\ get_buffered_data r = ((nmea_lines, ubx_base64), r')
  /\ (forall chunks, extends r (feed r chunks)).
Proof.
  cbn. repeat split.
  - apply length_map.
  - intros i. apply list_lookup_fmap.
  - destruct (feed_extends r chunks) as [H _]. exact H.
  - destruct (feed_extends r chunks) as [_ H]. exact H.
Qed.

Example b64encode_examples :
  b64encode [x4d; x61; x6e] = "TWFu"
  /\ b64encode [x4d; x61] = "TWE="
  /\ b64encode [x4d] = "TQ=="
  /\ b64encode [xb5; x62; x0a; x09; x00; x00; x13; x43] = "tWIKCQAAE0M=".
Proof. repeat split. Qed.

(** ** A frame cut in two *)

Example scenario_frame_is_valid :
  _extract_ubx_message scenario_frame = Some scenario_frame.
Proof. reflexivity. Qed.

(** C1, at the cut that fails. Fed whole, the scenario frame is emitted.
    Cut after its first byte, nothing is emitted: the lone [0xB5] at the end
    of the first chunk is passed over, and the second chunk no longer starts
    with a sync pair. *)
Theorem cut_between_sync_bytes_loses_frame :
  ubx_buffer (_process_data init scenario_frame) = [scenario_frame]
  /\ feed init [take 1 scenario_frame; drop 1 scenario_frame] = init.
Proof. split; vm_compute; reflexivity. Qed.

(** ** A frame with a wrong checksum *)

Example gga_line_alone :
  nmea_buffer (_process_data init gga_line) = ["$GPGGA,1*4B"%string].
Proof. vm_compute. reflexivity. Qed.

(** C2, at an input that fails. The frame is fully staged and its checksum
    is wrong; the call stops there, keeps the frame and all that follows it
    in the pending buffer, and the record behind it is not emitted. *)
Theorem bad_checksum_stops_the_chunk :
  _process_data init (bad_frame ++ gga_line)
  = mkReader [] [] [] (bad_frame ++ gga_line) SEARCHING 0.
Proof. vm_compute. reflexivity. Qed.

(** ** Where the two defects begin and end

    The lemmas below bound the two failures above: a frame cut anywhere but
    between its sync bytes is emitted as if it had come whole, and a frame
    with a wrong checksum blocks the reader for good. *)

Lemma with_partial_same r : ubx_partial_buffer r = [] -> with_partial [] r = r.
Proof. destruct r; cbn; intros ->; reflexivity. Qed.

Lemma with_partial_twice a b r : with_partial a (with_partial b r) = with_partial a r.
Proof. reflexivity. Qed.

Lemma process_with_pending r data :
  ubx_partial_buffer r <> [] ->
  _process_data r data = loop (with_partial [] r) (ubx_partial_buffer r ++ data) 0.
Proof.
  intros H. unfold _process_data. destruct (ubx_partial_buffer r); congruence.
Qed.

Lemma process_without_pending r data :
  ubx_partial_buffer r = [] -> _process_data r data = loop r data 0.
Proof. intros H. unfold _process_data. rewrite H. reflexivity. Qed.

Lemma valid_frame_bounds f :
  _extract_ubx_message f = Some f ->
  8 <= length f
  /\ (max_ubx_message_length <? length_field f)%Z = false
  /\ Z.of_nat (length f) = (8 + length_field f)%Z.
Proof.
  intros H. pose proof (extract_some _ _ H) as (_ & Hl & _ & _).
  unfold _extract_ubx_message in H.
  destruct (Nat.ltb_spec (length f) 8); [discriminate|].
  destruct (_ <? _)%Z; [discriminate|]. auto.
Qed.

Lemma sync_at_start (data : bytes) :
  nth 0 data x00 = UBX_SYNC_CHAR_1 ->
  nth 1 data x00 = UBX_SYNC_CHAR_2 ->
  2 <= length data ->
  byte_eqb (nth 0 data x00) UBX_SYNC_CHAR_1 = true /\ sync2_follows data 0 = true.
Proof.
  intros H0 H1 Hl. unfold sync2_follows. cbn [Nat.add]. rewrite H0, H1.
  destruct (Nat.ltb_spec 1 (length data)); [|lia]. split; reflexivity.
Qed.

(** A whole valid frame met in [SEARCHING] is appended and consumed. *)
Lemma whole_frame_emitted r f :
  parsing_state r = SEARCHING ->
  valid_frame f ->
  loop r f 0 = mkReader (nmea_buffer r) (ubx_buffer r ++ [f]) (nmea_line_buffer r)
                        [] SEARCHING 0.
Proof.
  intros Hs (H0 & H1 & He).
  pose proof (valid_frame_bounds f He) as (H8 & Hmax & _).
  destruct (sync_at_start f H0 H1 ltac:(lia)) as [Hb1 Hb2].
  rewrite loop_unfold.
  destruct (Nat.ltb_spec 0 (length f)); [|lia].
  unfold loop_body. rewrite Hs, Hb1, Hb2.
  cbn [ubx_partial_buffer with_partial]. rewrite !drop_0. rewrite Hmax, andb_false_r, He.
  rewrite loop_done by (cbn; lia).
  unfold with_partial, with_errors, append_ubx; cbn. rewrite Hs. reflexivity.
Qed.

(** A proper prefix of a valid frame that holds both sync bytes is kept as
    pending and ends the call. *)
Lemma prefix_kept_pending r f k :
  parsing_state r = SEARCHING ->
  valid_frame f ->
  2 <= k < length f ->
  loop r (take k f) 0 = with_partial (take k f) r.
Proof.
  intros Hs (H0 & H1 & He) Hk.
  pose proof (valid_frame_bounds f He) as (H8 & Hmax & Hlen).
  assert (Hl : length (take k f) = k) by (rewrite length_take; lia).
  destruct (sync_at_start (take k f)) as [Hb1 Hb2];
    [rewrite nth_take_lt by lia; exact H0
    |rewrite nth_take_lt by lia; exact H1 | lia |].
  rewrite loop_unfold, Hl.
  destruct (Nat.ltb_spec 0 k); [|lia].
  unfold loop_body. rewrite Hs, Hb1, Hb2.
  cbn [ubx_partial_buffer with_partial]. rewrite !drop_0.
  assert (Hover : (6 <=? length (take k f))
                  && (max_ubx_message_length <? length_field (take k f))%Z = false).
  { rewrite Hl. destruct (Nat.leb_spec 6 k); [|reflexivity].
    unfold length_field in *. rewrite !nth_take_lt by lia. rewrite Hmax.
    reflexivity. }
  rewrite Hover.
  assert (Hnone : _extract_ubx_message (take k f) = None).
  { unfold _extract_ubx_message. rewrite Hl.
    destruct (Nat.ltb_spec k 8); [reflexivity|].
    assert (Hf : length_field (take k f) = length_field f).
    { unfold length_field. rewrite !nth_take_lt by lia. reflexivity. }
    rewrite Hf, Hmax.
    destruct (Z.ltb_spec (Z.of_nat k) (6 + length_field f + 2)); [reflexivity|lia]. }
  rewrite Hnone. reflexivity.
Qed.

(** X8. A valid frame cut at any place that leaves both sync bytes in the same
    chunk (or cuts nothing off) gives the reader that the whole frame
    gives. *)
Lemma cut_elsewhere_is_harmless r f k :
  parsing_state r = SEARCHING ->
  ubx_partial_buffer r = [] ->
  valid_frame f ->
  k <> 1 ->
  feed r [take k f; drop k f] = _process_data r f.
Proof.
  intros Hs Hp Hv Hk. unfold feed. cbn [fold_left].
  pose proof Hv as (_ & _ & He).
  pose proof (valid_frame_bounds f He) as (H8 & _ & _).
  rewrite (process_without_pending r f Hp).
  destruct (Nat.eq_dec k 0) as [->|Hk0].
  - rewrite take_0, drop_0. rewrite (process_without_pending r [] Hp).
    rewrite loop_done by (cbn; lia).
    apply process_without_pending, Hp.
  - destruct (Nat.lt_ge_cases k (length f)) as [Hlt|Hge].
    + rewrite (process_without_pending r (take k f) Hp).
      rewrite prefix_kept_pending by (auto; lia).
      rewrite process_with_pending.
      * rewrite with_partial_twice, with_partial_same by exact Hp.
        cbn [ubx_partial_buffer with_partial].
        rewrite take_drop. reflexivity.
      * cbn. intros Hnil. apply (f_equal length) in Hnil.
        rewrite length_take in Hnil. cbn in Hnil. lia.
    + rewrite take_ge, drop_ge by lia.
      rewrite (process_without_pending r f Hp).
      rewrite whole_frame_emitted by auto.
      rewrite process_without_pending by reflexivity.
      apply loop_done. cbn. lia.
Qed.

Lemma staged_invalid_grows d more : staged_invalid d -> staged_invalid (d ++ more).
Proof.
  intros (H0 & H1 & Hmax & Hlen & Hbad).
  pose proof (length_field_nonneg d) as Hnn.
  assert (Hf : length_field (d ++ more) = length_field d).
  { unfold length_field. rewrite !app_nth1 by lia. reflexivity. }
  unfold staged_invalid. rewrite Hf, length_app, !app_nth1 by lia.
  repeat split; auto; [lia|].
  rewrite take_app_le by lia. exact Hbad.
Qed.

Lemma staged_invalid_stops r d :
  parsing_state r = SEARCHING ->
  staged_invalid d ->
  loop r d 0 = with_partial d r.
Proof.
  intros Hs (H0 & H1 & Hmax & Hlen & Hbad).
  pose proof (length_field_nonneg d) as Hnn.
  destruct (sync_at_start d H0 H1 ltac:(lia)) as [Hb1 Hb2].
  rewrite loop_unfold.
  destruct (Nat.ltb_spec 0 (length d)); [|lia].
  unfold loop_body. rewrite Hs, Hb1, Hb2.
  cbn [ubx_partial_buffer with_partial]. rewrite !drop_0.
  destruct (Z.ltb_spec max_ubx_message_length (length_field d)); [lia|].
  rewrite andb_false_r.
  assert (Hnone : _extract_ubx_message d = None).
  { unfold _extract_ubx_message.
    destruct (Nat.ltb_spec (length d) 8); [reflexivity|].
    destruct (Z.ltb_spec max_ubx_message_length (length_field d)); [reflexivity|].
    destruct (Z.ltb_spec (Z.of_nat (length d)) (6 + length_field d + 2));
      [reflexivity|].
    rewrite Hbad. reflexivity. }
  rewrite Hnone. reflexivity.
Qed.

(** X9. Once such a frame is staged, every later call stages it again in front
    of the new bytes and stops at it: the buffers never change again and
    the pending buffer holds all the bytes received since. *)
Lemma bad_checksum_blocks_reader r d chunks :
  parsing_state r = SEARCHING ->
  ubx_partial_buffer r = [] ->
  staged_invalid d ->
  feed r (d :: chunks) = with_partial (d ++ concat chunks) r.
Proof.
  intros Hs Hp Hd. unfold feed. cbn [fold_left].
  rewrite (process_without_pending r d Hp), staged_invalid_stops by auto.
  revert d Hd. induction chunks as [|c chunks IH]; intros d Hd.
  - cbn. rewrite app_nil_r. reflexivity.
  - cbn [fold_left concat].
    assert (Hne : d <> []).
    { destruct Hd as (_ & _ & _ & Hl & _).
      pose proof (length_field_nonneg d). destruct d; [cbn in Hl; lia|discriminate]. }
    rewrite process_with_pending by exact Hne.
    rewrite with_partial_twice, with_partial_same by exact Hp.
    cbn [ubx_partial_buffer with_partial].
    rewrite staged_invalid_stops by (auto using staged_invalid_grows).
    rewrite IH by (apply staged_invalid_grows; exact Hd).
    rewrite app_assoc. reflexivity.
Qed.

Example bad_frame_is_staged_invalid : staged_invalid bad_frame.
Proof. repeat split; vm_compute; congruence. Qed.

End ReaderFacts.

(** * Properties of the archival routines *)

Section ArchiveFacts.
Import Archive.

Lemma append_length a b :
  String.length (String.append a b) = String.length a + String.length b.
Proof.
  induction a as [|c a IH]; [reflexivity|].
  change (S (String.length (String.append a b))
          = S (String.length a + String.length b)).
  rewrite IH. reflexivity.
Qed.

Ltac paths_differ :=
  let H := fresh in
  intros H; apply (f_equal String.length) in H;
  unfold sha_tmp_of, sha_final_of, zst_final_of, zst_tmp_of in H;
  rewrite ?append_length in H; cbn in H; lia.

(** The source, the two temporary files and the two artifacts are five
    different paths, since their names have different lengths. *)
Lemma paths_distinct src :
  src <> zst_tmp_of src /\ src <> zst_final_of src /\ src <> sha_final_of src
  /\ src <> sha_tmp_of src
  /\ zst_tmp_of src <> zst_final_of src /\ zst_tmp_of src <> sha_final_of src
  /\ zst_tmp_of src <> sha_tmp_of src
  /\ zst_final_of src <> sha_final_of src /\ zst_final_of src <> sha_tmp_of src
  /\ sha_final_of src <> sha_tmp_of src.
Proof. repeat split; paths_differ. Qed.

(** Case analysis on the innermost scrutinee of the goal. *)
Ltac step_match :=
  match goal with
  | |- context [match ?x with _ => _ end] =>
      lazymatch x with
      | context [match _ with _ => _ end] => fail
      | _ => destruct x eqn:?
      end
  end.

Ltac unfold_routine :=
  unfold run, _compress_and_checksum, atomic_compress_and_checksum,
    checksum_and_rename, try_except, bind, ret, path_exists,
    run_zstd, os_sync, run_sha256sum, write_synced, os_replace, os_remove,
    fail, put_debris, put_file, emit;
  cbn.

Ltac lookup_through :=
  repeat first [ rewrite lookup_insert_eq | rewrite lookup_delete_eq
               | rewrite lookup_insert_ne by congruence
               | rewrite lookup_delete_ne by congruence ].

Ltac close_safe :=
  split; [|split; [|split]];
  try (intros pre post Heq; repeat (destruct pre as [|? pre]; simplify_eq/=));
  try (intros [o [e' Hin]]; cbn in Hin; split;
       [|cbn; intros Hr]; intuition (try discriminate));
  try (intros Hz; rewrite Hz in *; cbn in *; try discriminate);
  try (intros e' He'; inversion He'; subst; eexists; cbn; eauto 10; fail);
  try (split; reflexivity);
  lookup_through;
  try (auto; fail);
  try (cbn; intuition eauto; fail).

Lemma service_routine_safe : archival_safe _compress_and_checksum.
Proof.
  intros w fs src.
  destruct (paths_distinct src)
    as (N1 & N2 & N3 & N4 & N5 & N6 & N7 & N8 & N9 & N10).
  unfold_routine.
  repeat (step_match; cbn; rewrite ?lookup_insert_eq).
  all: close_safe.
Qed.

Lemma logger_routine_safe : archival_safe atomic_compress_and_checksum.
Proof.
  intros w fs src.
  destruct (paths_distinct src)
    as (N1 & N2 & N3 & N4 & N5 & N6 & N7 & N8 & N9 & N10).
  unfold_routine.
  repeat (step_match; cbn; rewrite ?lookup_insert_eq).
  all: close_safe.
Qed.

(** The service's routine catches every exception: it always returns. *)
Lemma service_routine_returns w fs src :
  snd (run _compress_and_checksum w fs src) = inr tt.
Proof.
  unfold_routine.
  repeat (step_match; cbn; rewrite ?lookup_insert_eq); reflexivity.
Qed.

(** C7, as amended. In both archival routines the source is removed only
    after both artifacts have been renamed into place, and both are then
    present; when a step fails, or [zstd] is not installed, the source stays
    as it was.  The service's routine returns in every case; the file
    logger's returns when [zstd] is not installed, and otherwise may let an
    exception out, and only one that a failed step raised. *)
Theorem source_removed_only_after_both_renames :
  archival_safe _compress_and_checksum
  /\ archival_safe atomic_compress_and_checksum
  /\ (forall w fs src, snd (run _compress_and_checksum w fs src) = inr tt).
Proof.
  split; [exact service_routine_safe|].
  split; [exact logger_routine_safe|].
  exact service_routine_returns.
Qed.

(** C7, as first stated, fails for the file logger's routine: when
    [sha256sum] exits with an error, the routine does not return, it raises
    [CalledProcessError]; the source is untouched.  On the same input the
    service's routine catches the exception and returns. *)
Lemma logger_routine_raises_on_failed_step :
  let '(s', res) :=
    run atomic_compress_and_checksum world_with_failing_sha256sum
        one_hour hour_file in
  res = inl CalledProcessError
  /\ trace s' = [ Ok (Zstd hour_file (zst_tmp_of hour_file)); Ok Sync;
                  Raised (Sha256sum (zst_tmp_of hour_file)) CalledProcessError ]
  /\ files s' !! hour_file = Some [xb5; x62]
  /\ snd (run _compress_and_checksum world_with_failing_sha256sum
              one_hour hour_file) = inr tt.
Proof. vm_compute. repeat split. Qed.

Example calm_run_trace :
  trace (fst (run _compress_and_checksum calm_world one_hour hour_file))
  = [ Ok (Zstd hour_file (zst_tmp_of hour_file)); Ok Sync;
      Ok (Sha256sum (zst_tmp_of hour_file));
      Ok (WriteFile (sha_tmp_of hour_file));
      Ok (Replace (zst_tmp_of hour_file) (zst_final_of hour_file));
      Ok (Replace (sha_tmp_of hour_file) (sha_final_of hour_file));
      Ok (Remove hour_file) ].
Proof. vm_compute. reflexivity. Qed.

Example run_without_zstd :
  run _compress_and_checksum world_without_zstd one_hour hour_file
  = (mkState one_hour
       [Raised (Zstd hour_file (zst_tmp_of hour_file)) FileNotFoundError],
     inr tt).
Proof. vm_compute. reflexivity. Qed.

Lemma source_removed_only_after_both_renames_witness :
  let '(s', res) := run _compress_and_checksum calm_world one_hour hour_file in
  (forall pre post,
      trace s' = pre ++ Ok (Remove hour_file) :: post ->
      In (Ok (Replace (zst_tmp_of hour_file) (zst_final_of hour_file))) pre
      /\ In (Ok (Replace (sha_tmp_of hour_file) (sha_final_of hour_file))) pre
      /\ is_Some (files s' !! zst_final_of hour_file)
      /\ is_Some (files s' !! sha_final_of hour_file))
  /\ ((exists o e, In (Raised o e) (trace s')) ->
      files s' !! hour_file = one_hour !! hour_file
      /\ ~ In (Ok (Remove hour_file)) (trace s'))
  /\ (zstd_installed calm_world = false -> res = inr tt /\ files s' = one_hour)
  /\ (forall e, res = inl e -> exists o, In (Raised o e) (trace s')).
Proof.
  exact (proj1 source_removed_only_after_both_renames
           calm_world one_hour hour_file).
Defined.

(** ** Running the archival again *)

Lemma service_routine_skips : skips_archived _compress_and_checksum.
Proof.
  intros w fs src Hz Hs. unfold_routine.
  rewrite !bool_decide_eq_true_2 by assumption. reflexivity.
Qed.

Lemma logger_routine_skips : skips_archived atomic_compress_and_checksum.
Proof.
  intros w fs src Hz Hs. unfold_routine.
  rewrite !bool_decide_eq_true_2 by assumption. reflexivity.
Qed.

Lemma safe_and_skipping_is_idle routine :
  archival_safe routine -> skips_archived routine -> second_run_is_idle routine.
Proof.
  intros Hsafe Hskip w1 w2 fs src s1 Hin.
  specialize (Hsafe w1 fs src). subst s1.
  destruct (run routine w1 fs src) as [s' res]. cbn in *.
  destruct Hsafe as (Horder & _).
  apply in_split in Hin as (pre & post & Htr).
  destruct (Horder pre post Htr) as (_ & _ & Hz & Hs).
  apply Hskip; assumption.
Qed.

(** C8. For a source whose two artifacts both exist, either routine runs
    no step, writes nothing and leaves every file, the source included, as
    it is; and a second call after a completed one finds both artifacts and
    so keeps the file system of the first. *)
Theorem archival_is_idempotent :
  skips_archived _compress_and_checksum
  /\ skips_archived atomic_compress_and_checksum
  /\ second_run_is_idle _compress_and_checksum
  /\ second_run_is_idle atomic_compress_and_checksum.
Proof.
  repeat split.
  - exact service_routine_skips.
  - exact logger_routine_skips.
  - apply safe_and_skipping_is_idle;
      [exact service_routine_safe | exact service_routine_skips].
  - apply safe_and_skipping_is_idle;
      [exact logger_routine_safe | exact logger_routine_skips].
Qed.

Lemma archival_is_idempotent_witness :
  run _compress_and_checksum calm_world archived_hour hour_file
  = (mkState archived_hour [], inr tt).
Proof.
  apply (proj1 archival_is_idempotent calm_world archived_hour hour_file).
  - vm_compute. eexists. reflexivity.
  - vm_compute. eexists. reflexivity.
Defined.

Example second_run_after_calm_run :
  let s1 := fst (run _compress_and_checksum calm_world one_hour hour_file) in
  run _compress_and_checksum world_without_zstd (files s1) hour_file
  = (mkState (files s1) [], inr tt).
Proof.
  apply (safe_and_skipping_is_idle _ service_routine_safe service_routine_skips).
  rewrite calm_run_trace. cbn. tauto.
Qed.

End ArchiveFacts.

(** * Properties of the sequence counter *)

Section SenderFacts.
Import Sender.
Context {coord time : Type}.
Variable config : Config coord.

Lemma send_all_numbers (s : NetworkSender)
    (calls : list (Outside time * list string * list string)) :
  map b_sequence_number (snd (send_all config s calls))
  = map (fun k => (sequence_number s + Z.of_nat k)%Z) (seq 1 (length calls))
  /\ sequence_number (fst (send_all config s calls))
     = (sequence_number s + Z.of_nat (length calls))%Z.
Proof.
  revert s. induction calls as [|[[o nmea_lines] ubx_base64] calls IH]; intros s.
  - cbn. split; [reflexivity|lia].
  - cbn [send_all length seq map].
    destruct (send_batch config s o nmea_lines ubx_base64) as [[s' batch] ok] eqn:Hsend.
    assert (Hs' : sequence_number s' = (sequence_number s + 1)%Z
                  /\ b_sequence_number batch = (sequence_number s + 1)%Z).
    { unfold send_batch in Hsend.
      destruct (post o) as [code|]; [destruct (code =? 202)%Z|];
        inversion Hsend; subst; split; reflexivity. }
    destruct Hs' as [Hs' Hb].
    specialize (IH s'). destruct (send_all config s' calls) as [s'' batches].
    cbn [fst snd map] in *. destruct IH as [IHb IHs].
    split.
    + rewrite Hb, IHb, Hs', <- (seq_shift (length calls) 1), map_map.
      f_equal; try lia. apply map_ext. intros k. lia.
    + lia.
Qed.

Lemma create_all_numbers (g : GroundNodeSender)
    (cycles : list (list bytes * Outside time)) :
  map b_sequence_number (snd (create_all config g cycles))
  = map (fun k => (g_sequence_number g + Z.of_nat k)%Z) (seq 1 (length cycles))
  /\ g_sequence_number (fst (create_all config g cycles))
     = (g_sequence_number g + Z.of_nat (length cycles))%Z.
Proof.
  revert g. induction cycles as [|[chunks o] cycles IH]; intros g.
  - cbn. split; [reflexivity|lia].
  - cbn [create_all length seq map].
    unfold create_batch, Reader.get_buffered_data. cbn [g_sequence_number reader].
    match goal with
    | |- context [create_all config ?g' cycles] => specialize (IH g')
    end.
    cbn [g_sequence_number] in IH.
    destruct (create_all config _ cycles) as [g'' batches].
    cbn [fst snd map b_sequence_number build_batch] in *. destruct IH as [IHb IHs].
    split.
    + rewrite IHb, <- (seq_shift (length cycles) 1), map_map.
      f_equal; try lia. apply map_ext. intros k. lia.
    + lia.
Qed.

(** C9. From a new sender, the batches of any sequence of calls carry the
    numbers 1, 2, 3, ... in order, whatever each [post] answers (202, another
    status, an exception) and whatever is sent; the same holds for the
    stand-alone sender's [create_batch].  A new sender starts from 0 and
    takes nothing from an earlier one. *)
Theorem sequence_numbers_count_from_one
    (calls : list (Outside time * list string * list string))
    (cycles : list (list bytes * Outside time)) :
  map b_sequence_number (snd (send_all config NetworkSender_init calls))
  = map Z.of_nat (seq 1 (length calls))
  /\ map b_sequence_number (snd (create_all config GroundNodeSender_init cycles))
     = map Z.of_nat (seq 1 (length cycles))
  /\ sequence_number NetworkSender_init = 0%Z
  /\ g_sequence_number GroundNodeSender_init = 0%Z.
Proof.
  repeat split.
  - rewrite (proj1 (send_all_numbers NetworkSender_init calls)).
    apply map_ext. intros k. cbn. lia.
  - rewrite (proj1 (create_all_numbers GroundNodeSender_init cycles)).
    apply map_ext. intros k. cbn. lia.
Qed.

(** One more call gives the next number, accepted or not. *)
Lemma send_batch_increments (s : NetworkSender) (o : Outside time)
    (nmea_lines ubx_base64 : list string) :
  let '(s', batch, _) := send_batch config s o nmea_lines ubx_base64 in
  sequence_number s' = (sequence_number s + 1)%Z
  /\ b_sequence_number batch = (sequence_number s + 1)%Z.
Proof.
  unfold send_batch.
  destruct (post o) as [code|]; [destruct (code =? 202)%Z|]; split; reflexivity.
Qed.

End SenderFacts.

Example three_sends :
  map Sender.b_sequence_number
    (snd (Sender.send_all
            (Sender.mkConfig "GN-01" "Ground node 1" false 0%Z 0%Z 0%Z)
            Sender.NetworkSender_init
            [ (Sender.mkOutside "a" 10%Z (Sender.Status 202), ["$GPGGA,1*4B"%string], []);
              (Sender.mkOutside "b" 11%Z (Sender.Status 500), [], ["tWI="%string]);
              (Sender.mkOutside "c" 12%Z Sender.RequestException, [], []) ]))
  = [1; 2; 3]%Z.
Proof. reflexivity. Qed.

(** * Further properties of the demultiplexer *)

(** The loop, one pass at a time, under a name of its own. *)
Lemma loop_step r data i :
  Reader.loop r data i =
  if i <? length data
  then match Reader.loop_body r data i with
       | Reader.Break r' => r'
       | Reader.Continue r' i' => Reader.loop r' data i'
       end
  else r.
Proof. exact (loop_unfold r data i). Qed.

Section ReaderMoreFacts.
Import Reader ReaderMore.

(** ** The loop only looks ahead of its index *)




(** ** Whole frames, one after the other *)







(** ** Streams without the first sync byte *)

Lemma drop_nth (l : bytes) i :
  i < length l -> drop i l = nth i l x00 :: drop (S i) l.
Proof.
  revert i. induction l as [|x l IH]; intros i H; cbn in H; [lia|].
  destruct i; [reflexivity|]. cbn. apply IH. lia.
Qed.

Lemma body_bytewise r data i :
  nth i data x00 <> UBX_SYNC_CHAR_1 ->
  loop_body r data i = Continue (byte_step r (nth i data x00)) (i + 1).
Proof.
  intros Hb. unfold byte_step, loop_body. cbn [nth].
  destruct (byte_eqb (nth i data x00) UBX_SYNC_CHAR_1) eqn:E;
    [apply byte_eqb_eq in E; contradiction|].
  destruct (parsing_state r).
  - destruct (byte_eqb _ x24); reflexivity.
  - cbn [nmea_line_buffer with_line andb].
    destruct (byte_eqb _ x0a); [reflexivity|].
    destruct (_ <? _); reflexivity.
  - reflexivity.
Qed.

Lemma loop_bytewise data :
  Forall (fun b => b <> UBX_SYNC_CHAR_1) data ->
  forall n r i, length data - i = n ->
  loop r data i = fold_left byte_step (drop i data) r.
Proof.
  intros Hd. induction n as [|n IH]; intros r i Hn.
  - rewrite loop_done by lia. rewrite drop_ge by lia. reflexivity.
  - rewrite loop_step.
    destruct (Nat.ltb_spec i (length data)); [|lia].
    assert (Hb : nth i data x00 <> UBX_SYNC_CHAR_1).
    { rewrite List.Forall_forall in Hd. apply Hd, nth_In. assumption. }
    rewrite body_bytewise by exact Hb.
    rewrite (drop_nth data i) by assumption. cbn [fold_left].
    replace (i + 1) with (S i) by lia. apply IH. lia.
Qed.

Lemma byte_step_keeps_pending r b :
  b <> UBX_SYNC_CHAR_1 ->
  ubx_partial_buffer r = [] ->
  ubx_partial_buffer (byte_step r b) = [].
Proof.
  intros Hb Hp. unfold byte_step, loop_body. cbn [nth].
  destruct (byte_eqb b UBX_SYNC_CHAR_1) eqn:E;
    [apply byte_eqb_eq in E; contradiction|].
  destruct (parsing_state r).
  - destruct (byte_eqb b x24); exact Hp.
  - cbn [nmea_line_buffer with_line andb].
    destruct (byte_eqb b x0a).
    + cbn. unfold finish_line. cbn.
      destruct (decode_ascii _); [|exact Hp].
      destruct (_ && _); [|exact Hp].
      destruct (_validate_nmea_checksum _); exact Hp.
    + destruct (_ <? _); exact Hp.
  - reflexivity.
Qed.

Lemma fold_keeps_pending data : forall r,
  Forall (fun b => b <> UBX_SYNC_CHAR_1) data ->
  ubx_partial_buffer r = [] ->
  ubx_partial_buffer (fold_left byte_step data r) = [].
Proof.
  induction data as [|b data IH]; intros r Hd Hp; [exact Hp|].
  inversion Hd; subst. cbn. apply IH; [assumption|].
  apply byte_step_keeps_pending; assumption.
Qed.

Lemma process_bytewise r data :
  ubx_partial_buffer r = [] ->
  Forall (fun b => b <> UBX_SYNC_CHAR_1) data ->
  _process_data r data = fold_left byte_step data r.
Proof.
  intros Hp Hd. rewrite process_without_pending by exact Hp.
  rewrite (loop_bytewise data Hd (length data) r 0) by lia.
  rewrite drop_0. reflexivity.
Qed.

(** X2. A stream in which the byte [0xB5] does not occur is read the same
    however it is cut into chunks. *)
Theorem stream_without_sync_byte_ignores_chunking r (chunks : list bytes) :
  ubx_partial_buffer r = [] ->
  Forall (Forall (fun b => b <> UBX_SYNC_CHAR_1)) chunks ->
  feed r chunks = _process_data r (concat chunks).
Proof.
  intros Hp Hc.
  assert (Hall : Forall (fun b => b <> UBX_SYNC_CHAR_1) (concat chunks)).
  { induction Hc; cbn; [constructor|]. apply Forall_app; split; assumption. }
  rewrite (process_bytewise r (concat chunks) Hp Hall). clear Hall.
  revert r Hp. unfold feed.
  induction Hc as [|c chunks Hc Hcs IH]; intros r Hp; [reflexivity|].
  cbn [fold_left concat]. rewrite fold_left_app.
  rewrite (process_bytewise r c Hp Hc).
  apply IH. apply fold_keeps_pending; assumption.
Qed.

Lemma stream_without_sync_byte_ignores_chunking_witness :
  feed init [take 5 gga_line; drop 5 gga_line]
  = _process_data init (concat [take 5 gga_line; drop 5 gga_line]).
Proof.
  apply (stream_without_sync_byte_ignores_chunking init
           [take 5 gga_line; drop 5 gga_line]).
  - reflexivity.
  - repeat constructor; discriminate.
Defined.

(** ** Decoding and stripping *)

Lemma append_cons c s t :
  String.append (String c s) t = String c (String.append s t).
Proof. reflexivity. Qed.

Lemma append_empty t : String.append EmptyString t = t.
Proof. reflexivity. Qed.

Lemma decode_with_lf a :
  decode_ascii (a ++ [x0a])
  = match decode_ascii a with
    | Some s => Some (String.append s (String "010" EmptyString))
    | None => None
    end.
Proof.
  induction a as [|x a IH]; [reflexivity|].
  cbn [app decode_ascii]. destruct (byte_val x <? 128)%Z; [|reflexivity].
  rewrite IH. destruct (decode_ascii a); reflexivity.
Qed.

Lemma decode_length a s : decode_ascii a = Some s -> String.length s = length a.
Proof.
  revert s. induction a as [|x a IH]; intros s H; cbn in H.
  - inversion H. reflexivity.
  - destruct (byte_val x <? 128)%Z; [|discriminate].
    destruct (decode_ascii a) as [t|]; [|discriminate].
    inversion H; subst. cbn. rewrite (IH t eq_refl). reflexivity.
Qed.

Lemma decode_without_lf a s :
  decode_ascii a = Some s -> ~ In x0a a -> contains "010" s = false.
Proof.
  revert s. induction a as [|x a IH]; intros s H Hn; cbn in H.
  - inversion H. reflexivity.
  - destruct (byte_val x <? 128)%Z; [|discriminate].
    destruct (decode_ascii a) as [t|]; [|discriminate].
    inversion H; subst. cbn.
    rewrite (IH t eq_refl) by (intros Hi; apply Hn; right; exact Hi).
    rewrite orb_false_r. apply Ascii.eqb_neq. intros Hx.
    apply Hn. left. rewrite <- (byte_of_ascii_of_byte x), Hx. reflexivity.
Qed.

Lemma lstrip_length p s : String.length (lstrip_by p s) <= String.length s.
Proof.
  induction s as [|c s IH]; cbn; [lia|]. destruct (p c); cbn; lia.
Qed.

Lemma rstrip_length p s : String.length (rstrip_by p s) <= String.length s.
Proof.
  induction s as [|c s IH]; cbn; [lia|].
  destruct (rstrip_by p s); [destruct (p c)|]; cbn in *; lia.
Qed.

Lemma lstrip_contains p c s :
  contains c s = false -> contains c (lstrip_by p s) = false.
Proof.
  induction s as [|d s IH]; cbn; [auto|]. intros H.
  apply orb_false_iff in H as [Hd Hs].
  destruct (p d); [auto|]. cbn. rewrite Hd, Hs. reflexivity.
Qed.

Lemma rstrip_contains p c s :
  contains c s = false -> contains c (rstrip_by p s) = false.
Proof.
  induction s as [|d s IH]; cbn; [auto|]. intros H.
  apply orb_false_iff in H as [Hd Hs]. specialize (IH Hs).
  destruct (rstrip_by p s); [destruct (p d)|]; cbn in *;
    rewrite ?Hd, ?IH; auto.
Qed.

Lemma rstrip_last p s c :
  p c = true ->
  rstrip_by p (String.append s (String c EmptyString)) = rstrip_by p s.
Proof.
  intros Hc. induction s as [|d s IH].
  - rewrite append_empty. cbn. rewrite Hc. reflexivity.
  - rewrite append_cons. cbn [rstrip_by]. rewrite IH. reflexivity.
Qed.

Lemma lstrip_last p s c :
  p c = true ->
  lstrip_by p (String.append s (String c EmptyString))
  = match lstrip_by p s with
    | EmptyString => EmptyString
    | t => String.append t (String c EmptyString)
    end.
Proof.
  intros Hc. induction s as [|d s IH].
  - rewrite append_empty. cbn. rewrite Hc. reflexivity.
  - rewrite append_cons. cbn [lstrip_by]. destruct (p d); [exact IH|reflexivity].
Qed.

(** The line feed that ends a line is stripped with the rest. *)
Lemma strip_line_feed s :
  strip (String.append s (String "010" EmptyString)) = strip s.
Proof.
  unfold strip. rewrite lstrip_last by reflexivity.
  destruct (lstrip_by py_isspace s) as [|d t] eqn:E; [reflexivity|].
  apply rstrip_last. reflexivity.
Qed.

Lemma strip_shape s :
  String.length s <= max_nmea_line_length ->
  contains "010" s = false ->
  record_shape (strip s).
Proof.
  intros Hl Hc. unfold record_shape, strip. split.
  - pose proof (rstrip_length py_isspace (lstrip_by py_isspace s)).
    pose proof (lstrip_length py_isspace s). lia.
  - apply rstrip_contains, lstrip_contains, Hc.
Qed.

(** ** What the scratch state and the records look like *)

Lemma body_keeps_shape r data i :
  scratch_ok r /\ Forall record_shape (nmea_buffer r) ->
  scratch_ok (flow_reader (loop_body r data i))
  /\ Forall record_shape (nmea_buffer (flow_reader (loop_body r data i))).
Proof.
  intros [Hs Hr]. unfold scratch_ok in Hs. unfold loop_body.
  destruct (parsing_state r) eqn:Hst; [| |contradiction].
  - destruct (byte_eqb _ UBX_SYNC_CHAR_1).
    + destruct (sync2_follows data i).
      * cbn [ubx_partial_buffer with_partial].
        destruct (_ && _).
        -- destruct (_ <=? _)%Z; cbn; unfold scratch_ok; cbn; rewrite Hst; auto.
        -- destruct (_extract_ubx_message _); cbn; unfold scratch_ok; cbn;
             rewrite Hst; auto.
      * cbn. unfold scratch_ok. rewrite Hst. auto.
    + destruct (byte_eqb _ x24) eqn:E.
      * apply byte_eqb_eq in E. cbn. unfold scratch_ok. cbn. rewrite E.
        split; [|exact Hr]. split; [eauto|].
        split; [unfold max_nmea_line_length; cbn; lia|].
        intros [H|[]]. discriminate.
      * cbn. unfold scratch_ok. rewrite Hst. auto.
  - destruct Hs as ((rest & Hline) & Hlen & Hlf).
    cbn [nmea_line_buffer with_line].
    destruct (byte_eqb _ x0a) eqn:E0.
    + apply byte_eqb_eq in E0. cbn. split; [reflexivity|].
      unfold finish_line. cbn [nmea_line_buffer with_line].
      rewrite E0, decode_with_lf.
      destruct (decode_ascii (nmea_line_buffer r)) as [s|] eqn:Ed; [|exact Hr].
      destruct (_ && _); [|exact Hr].
      destruct (_validate_nmea_checksum _); [|exact Hr].
      cbn. apply Forall_app; split; [exact Hr|].
      constructor; [|constructor].
      rewrite strip_line_feed. apply strip_shape.
      * rewrite (decode_length _ _ Ed). exact Hlen.
      * apply (decode_without_lf _ _ Ed Hlf).
    + destruct (Nat.ltb_spec max_nmea_line_length
                  (length (nmea_line_buffer r ++ [nth i data x00]))) as [Hov|Hov].
      * cbn. split; [reflexivity|exact Hr].
      * destruct (_ && _).
        -- cbn. split; [reflexivity|exact Hr].
        -- cbn. unfold scratch_ok. cbn. rewrite Hst.
           split; [|exact Hr]. split; [|split].
           ++ rewrite Hline. cbn. eauto.
           ++ exact Hov.
           ++ intros Hin. apply in_app_or in Hin as [Hin|[Hin|[]]];
                [exact (Hlf Hin)|].
              rewrite Hin in E0. vm_compute in E0. discriminate.
Qed.

Lemma feed_keeps_shape (chunks : list bytes) :
  scratch_ok (feed init chunks)
  /\ Forall record_shape (nmea_buffer (feed init chunks)).
Proof.
  apply (feed_keeps (fun r => scratch_ok r /\ Forall record_shape (nmea_buffer r))).
  - intros r data i. apply body_keeps_shape.
  - intros r [Hs Hr]. split; [|exact Hr].
    unfold scratch_ok in *. cbn. exact Hs.
  - split; [reflexivity|constructor].
Qed.

(** X3. Between calls the reader is in one of its two states, never in the
    branch for an unknown state; while it searches no line is open; an open
    line starts with [$], holds at most 512 bytes and no line feed. *)
Theorem scratch_state_stays_well_formed (chunks : list bytes) :
  scratch_ok (feed init chunks).
Proof. exact (proj1 (feed_keeps_shape chunks)). Qed.

(** X4. Every record in the buffer has at most 512 characters and no line feed
    among them: written one per line, records cannot run into each other. *)
Theorem emitted_records_are_single_lines (chunks : list bytes) :
  Forall record_shape (nmea_buffer (feed init chunks)).
Proof. exact (proj2 (feed_keeps_shape chunks)). Qed.

(** ** A sentence that arrives whole *)

Lemma open_line_grows l : forall r,
  parsing_state r = IN_NMEA ->
  Forall (fun b => b <> x0a /\ b <> UBX_SYNC_CHAR_1) l ->
  length (nmea_line_buffer r) + length l <= max_nmea_line_length ->
  fold_left byte_step l r = with_line (nmea_line_buffer r ++ l) r.
Proof.
  induction l as [|b l IH]; intros r Hs Hl Hlen.
  - cbn. rewrite app_nil_r. destruct r; reflexivity.
  - inversion Hl as [|? ? [Hb0 Hb1] Hrest]; subst. cbn [fold_left length] in *.
    assert (Hstep : byte_step r b = with_line (nmea_line_buffer r ++ [b]) r).
    { unfold byte_step, loop_body. rewrite Hs. cbn [nth nmea_line_buffer with_line].
      destruct (byte_eqb b x0a) eqn:E0; [apply byte_eqb_eq in E0; contradiction|].
      destruct (Nat.ltb_spec max_nmea_line_length
                  (length (nmea_line_buffer r ++ [b]))) as [Hov|Hov];
        [rewrite length_app in Hov; cbn in Hov; lia|].
      destruct (byte_eqb b UBX_SYNC_CHAR_1) eqn:E1;
        [apply byte_eqb_eq in E1; contradiction|].
      reflexivity. }
    rewrite Hstep, IH.
    + cbn. rewrite <- app_assoc. reflexivity.
    + exact Hs.
    + exact Hrest.
    + cbn. rewrite length_app. cbn. lia.
Qed.

Lemma strip_keeps_dollar s :
  startswith "$" (strip (String "$" s)) = true.
Proof.
  unfold strip. cbn [lstrip_by]. replace (py_isspace "$") with false by reflexivity.
  cbn [rstrip_by]. destruct (rstrip_by py_isspace s); reflexivity.
Qed.

(** X5. A line that arrives whole, from [$] to the line feed, in a reader that
    is searching: if it decodes as ASCII, is longer than five characters once
    stripped and passes the checksum check, it is appended, stripped, to the
    records; otherwise nothing is appended.  Either way the reader is
    searching again with no line open. *)
Theorem whole_line_is_judged r (l : bytes) :
  parsing_state r = SEARCHING ->
  ubx_partial_buffer r = [] ->
  nmea_line_buffer r = [] ->
  Forall (fun b => b <> x0a /\ b <> UBX_SYNC_CHAR_1) l ->
  length l < max_nmea_line_length ->
  _process_data r (x24 :: l ++ [x0a])
  = match decode_ascii (x24 :: l) with
    | Some s =>
        if (5 <? String.length (strip s)) && _validate_nmea_checksum (strip s)
        then append_nmea (strip s) r
        else r
    | None => r
    end.
Proof.
  intros Hs Hp Hline Hl Hlen.
  rewrite process_bytewise; [|exact Hp|].
  2:{ constructor; [discriminate|]. apply Forall_app; split.
      - eapply Forall_impl; [exact Hl|]. intros b [_ H]. exact H.
      - constructor; [discriminate|constructor]. }
  cbn [fold_left]. rewrite fold_left_app. cbn [fold_left].
  assert (H1 : byte_step r x24 = with_line [x24] (with_state IN_NMEA r)).
  { unfold byte_step, loop_body. rewrite Hs. reflexivity. }
  rewrite H1, open_line_grows;
    [|reflexivity|exact Hl|unfold max_nmea_line_length in *; cbn; lia].
  cbn [nmea_line_buffer with_line with_state app].
  unfold byte_step, loop_body.
  cbn [parsing_state with_line with_state nth nmea_line_buffer flow_reader].
  replace (byte_eqb x0a x0a) with true by reflexivity.
  cbn [flow_reader]. unfold finish_line. cbn [nmea_line_buffer with_line].
  change (x24 :: l ++ [x0a]) with ((x24 :: l) ++ [x0a]).
  rewrite decode_with_lf.
  destruct (decode_ascii (x24 :: l)) as [s|] eqn:Ed.
  - rewrite strip_line_feed.
    assert (Hd : exists t, s = String "$" t).
    { cbn in Ed. destruct (decode_ascii l) as [t|]; [|discriminate].
      inversion Ed. eauto. }
    destruct Hd as [t ->]. rewrite strip_keeps_dollar. cbn [andb].
    destruct (5 <? String.length (strip (String "$" t))); cbn [andb].
    + destruct (_validate_nmea_checksum _);
        destruct r; cbn in *; subst; reflexivity.
    + destruct r; cbn in *; subst; reflexivity.
  - destruct r; cbn in *; subst; reflexivity.
Qed.

Lemma whole_line_is_judged_witness :
  _process_data init (x24 :: [x47; x50; x47; x47; x41; x2c; x31; x2a; x34; x42; x0d] ++ [x0a])
  = match decode_ascii (x24 :: [x47; x50; x47; x47; x41; x2c; x31; x2a; x34; x42; x0d]) with
    | Some s =>
        if (5 <? String.length (strip s)) && _validate_nmea_checksum (strip s)
        then append_nmea (strip s) init
        else init
    | None => init
    end.
Proof.
  apply (whole_line_is_judged init).
  - reflexivity.
  - reflexivity.
  - reflexivity.
  - repeat constructor; discriminate.
  - unfold max_nmea_line_length. cbn. lia.
Defined.

(** ** What the checksum check reads *)

Lemma split_at_only_star a b :
  contains "*" a = false ->
  contains "*" b = false ->
  split "*" (String.append a (String "*" b)) = [a; b].
Proof.
  intros Ha Hb. induction a as [|c a IH].
  - rewrite append_empty. cbn [split]. replace (Ascii.eqb "*" "*") with true by reflexivity.
    assert (Hsb : split "*" b = [b]).
    { clear -Hb. induction b as [|d b IHb]; [reflexivity|].
      cbn in Hb. apply orb_false_iff in Hb as [Hd Hb].
      cbn [split]. rewrite Hd, (IHb Hb). reflexivity. }
    rewrite Hsb. reflexivity.
  - cbn in Ha. apply orb_false_iff in Ha as [Hc Ha].
    rewrite append_cons. cbn [split]. rewrite Hc, (IH Ha). reflexivity.
Qed.

Lemma contains_append c a b :
  contains c (String.append a b) = contains c a || contains c b.
Proof.
  induction a as [|d a IH]; [reflexivity|].
  rewrite append_cons. cbn [contains]. rewrite IH, orb_assoc. reflexivity.
Qed.

(** X6. Of what follows the [*] the check reads two characters and no more:
    text after them, as long as it holds no further [*], does not change the
    answer. *)
Theorem checksum_check_reads_two_characters (sentence junk : string) (c1 c2 : ascii) :
  contains "*" sentence = false ->
  contains "*" (String c1 (String c2 junk)) = false ->
  _validate_nmea_checksum
    (String.append sentence (String "*" (String c1 (String c2 junk))))
  = _validate_nmea_checksum
      (String.append sentence (String "*" (String c1 (String c2 EmptyString)))).
Proof.
  intros Hs Hj.
  assert (Hj' : contains "*" (String c1 (String c2 EmptyString)) = false).
  { cbn in *. apply orb_false_iff in Hj as [H1 Hj].
    apply orb_false_iff in Hj as [H2 _]. rewrite H1, H2. reflexivity. }
  unfold _validate_nmea_checksum.
  rewrite !contains_append. cbn [contains].
  replace (Ascii.eqb "*" "*") with true by reflexivity.
  rewrite !orb_true_r. cbn [negb].
  rewrite (split_at_only_star _ _ Hs Hj), (split_at_only_star _ _ Hs Hj').
  reflexivity.
Qed.

Lemma checksum_check_reads_two_characters_witness :
  _validate_nmea_checksum (String.append "$GPGGA,1" (String "*" (String "4" (String "B" "ZZ,garbage"))))
  = _validate_nmea_checksum (String.append "$GPGGA,1" (String "*" (String "4" (String "B" EmptyString)))).
Proof.
  apply checksum_check_reads_two_characters; reflexivity.
Defined.

(** ** The code's check and the specification's words *)

Lemma before_after_star a b :
  contains "*" a = false ->
  before_char "*" (String.append a (String "*" b)) = a
  /\ after_char "*" (String.append a (String "*" b)) = b.
Proof.
  intros Ha. induction a as [|c a IH].
  - rewrite append_empty. split; reflexivity.
  - cbn in Ha. apply orb_false_iff in Ha as [Hc Ha].
    rewrite append_cons. cbn [before_char after_char]. rewrite Hc.
    destruct (IH Ha) as [-> ->]. split; reflexivity.
Qed.

(** Where the two rules agree: on a record with one [$] in front, one [*],
    and two hexadecimal digits after it. *)
Lemma checks_agree_on_plain_records (body rest : string) (h1 h2 : ascii) (a b : Z) :
  startswith "$" body = false ->
  contains "*" body = false ->
  contains "*" (String h1 (String h2 rest)) = false ->
  hex_digit h1 = Some a ->
  hex_digit h2 = Some b ->
  _validate_nmea_checksum
    (String.append (String "$" body) (String "*" (String h1 (String h2 rest))))
  = spec_checksum_ok
      (String.append (String "$" body) (String "*" (String h1 (String h2 rest)))).
Proof.
  intros Hd Hb Hr H1 H2.
  assert (Hs : contains "*" (String "$" body) = false) by exact Hb.
  unfold _validate_nmea_checksum, spec_checksum_ok.
  rewrite contains_append. cbn [contains]. rewrite Hb.
  replace (Ascii.eqb "*" "*") with true by reflexivity.
  replace (Ascii.eqb "$" "*") with false by reflexivity.
  cbn [orb negb].
  rewrite (split_at_only_star _ _ Hs Hr).
  destruct (before_after_star (String "$" body) (String h1 (String h2 rest)) Hs)
    as [-> ->].
  cbn [str_take int16 lstrip_by].
  replace (Ascii.eqb "$" "$") with true by reflexivity.
  assert (Hl : lstrip_by (Ascii.eqb "$") body = body).
  { destruct body as [|c body]; [reflexivity|].
    cbn [startswith] in Hd. cbn [lstrip_by].
    rewrite Ascii.eqb_sym, Hd. reflexivity. }
  rewrite Hl, H1, H2. apply Z.eqb_sym.
Qed.

(** ** Draining while the reader goes on *)

Lemma body_rebase ns us r data i :
  loop_body (rebase ns us r) data i = flow_map (rebase ns us) (loop_body r data i).
Proof.
  unfold loop_body. cbn [parsing_state rebase].
  destruct (parsing_state r) eqn:Hst.
  - destruct (byte_eqb _ UBX_SYNC_CHAR_1).
    + destruct (sync2_follows data i); [|reflexivity].
      cbn [ubx_partial_buffer with_partial].
      destruct (_ && _).
      * cbn [ubx_error_count with_errors with_partial].
        destruct (_ <=? _)%Z; reflexivity.
      * destruct (_extract_ubx_message _); [|reflexivity].
        cbn. unfold rebase. cbn. rewrite app_assoc. reflexivity.
    + destruct (byte_eqb _ x24); reflexivity.
  - cbn [nmea_line_buffer with_line].
    destruct (byte_eqb _ x0a).
    + unfold finish_line. cbn [nmea_line_buffer with_line].
      destruct (decode_ascii _); [|reflexivity].
      destruct (_ && _); [|reflexivity].
      destruct (_validate_nmea_checksum _); [|reflexivity].
      cbn. unfold rebase. cbn. rewrite app_assoc. reflexivity.
    + destruct (_ <? _); [reflexivity|].
      destruct (_ && _); reflexivity.
  - reflexivity.
Qed.

Lemma loop_rebase ns us r data i :
  loop (rebase ns us r) data i = rebase ns us (loop r data i).
Proof.
  apply (loop_elim (fun r data i res =>
           loop (rebase ns us r) data i = rebase ns us res)).
  - intros r0 data0 i0 e _. apply Nat.ltb_ge in e. rewrite loop_done by lia.
    reflexivity.
  - intros r0 data0 i0 r' i' Hb Hi IH _ _.
    rewrite loop_step, Hi, body_rebase, Hb. exact IH.
  - intros r0 data0 i0 r' Hb Hi _ _.
    rewrite loop_step, Hi, body_rebase, Hb. reflexivity.
Qed.

Lemma process_rebase ns us r data :
  _process_data (rebase ns us r) data = rebase ns us (_process_data r data).
Proof.
  unfold _process_data. cbn [ubx_partial_buffer rebase].
  destruct (ubx_partial_buffer r) eqn:Hp.
  - apply loop_rebase.
  - rewrite <- loop_rebase. reflexivity.
Qed.

Lemma feed_rebase ns us chunks : forall r,
  feed (rebase ns us r) chunks = rebase ns us (feed r chunks).
Proof.
  unfold feed. induction chunks as [|c chunks IH]; intros r; [reflexivity|].
  cbn [fold_left]. rewrite process_rebase. apply IH.
Qed.

(** X7. A drain takes nothing from what comes next: whatever is fed after it,
    the reader ends as it would have without the drain, except that what was
    drained is missing at the front of its two buffers. *)
Theorem drain_then_feed_loses_nothing (r : GNSSReader) (chunks : list bytes) :
  let '((nmea_lines, _, ubx_raw), r') := get_buffered_data_with_raw_ubx r in
  feed r chunks = rebase nmea_lines ubx_raw (feed r' chunks).
Proof.
  cbn. rewrite <- feed_rebase. f_equal.
  destruct r; unfold rebase, clear_buffers; cbn. rewrite !app_nil_r. reflexivity.
Qed.

(** ** The two cuts and the blocked reader, at sample inputs *)

Lemma cut_elsewhere_is_harmless_witness :
  feed init [take 5 scenario_frame; drop 5 scenario_frame]
  = _process_data init scenario_frame.
Proof.
  apply (cut_elsewhere_is_harmless init scenario_frame 5).
  - reflexivity.
  - reflexivity.
  - repeat split.
  - lia.
Defined.

Lemma bad_checksum_blocks_reader_witness :
  feed init (bad_frame :: [gga_line; scenario_frame])
  = with_partial (bad_frame ++ concat [gga_line; scenario_frame]) init.
Proof.
  apply (bad_checksum_blocks_reader init bad_frame [gga_line; scenario_frame]).
  - reflexivity.
  - reflexivity.
  - exact bad_frame_is_staged_invalid.
Defined.

End ReaderMoreFacts.

(** * Properties of the query tool *)

Section QueryFacts.
Import Reader Query.

Lemma pack_B_some n :
  (0 <= n <= 255)%Z -> exists b, pack_B n = Some b /\ byte_val b = n.
Proof.
  intros H. unfold pack_B.
  destruct (Z.leb_spec 0 n); [|lia]. destruct (Z.leb_spec n 255); [|lia]. cbn.
  destruct (Byte.of_N (Z.to_N n)) as [b|] eqn:E.
  - exists b. split; [reflexivity|]. apply Byte.to_of_N in E.
    unfold byte_val. rewrite E. lia.
  - apply Byte.of_N_None_iff in E. lia.
Qed.

Lemma pack_B_none n : ~ (0 <= n <= 255)%Z -> pack_B n = None.
Proof.
  intros H. unfold pack_B.
  destruct (Z.leb_spec 0 n); [|reflexivity].
  destruct (Z.leb_spec n 255); [lia|reflexivity].
Qed.

Lemma pack_H_some n :
  (0 <= n <= 65535)%Z ->
  exists lo hi, pack_H n = Some [lo; hi] /\ unpack_H lo hi = n.
Proof.
  intros H. unfold pack_H.
  destruct (Z.leb_spec 0 n); [|lia]. destruct (Z.leb_spec n 65535); [|lia]. cbn.
  pose proof (Z.mod_pos_bound n 256 ltac:(lia)) as Hm.
  assert (Hd : (0 <= n / 256 <= 255)%Z).
  { split; [apply Z.div_pos; lia|].
    assert (n / 256 < 256)%Z by (apply Z.div_lt_upper_bound; lia). lia. }
  destruct (Byte.of_N (Z.to_N (n mod 256))) as [lo|] eqn:El;
    [|apply Byte.of_N_None_iff in El; lia].
  destruct (Byte.of_N (Z.to_N (n / 256))) as [hi|] eqn:Eh;
    [|apply Byte.of_N_None_iff in Eh; lia].
  exists lo, hi. split; [reflexivity|].
  apply Byte.to_of_N in El, Eh. unfold unpack_H, byte_val. rewrite El, Eh.
  rewrite !Z2N.id by lia. symmetry. rewrite Z.add_comm. apply Z.div_mod. lia.
Qed.

Lemma pack_H_none n : ~ (0 <= n <= 65535)%Z -> pack_H n = None.
Proof.
  intros H. unfold pack_H.
  destruct (Z.leb_spec 0 n); [|reflexivity].
  destruct (Z.leb_spec n 65535); [lia|reflexivity].
Qed.

Lemma land_255_range x : (0 <= Z.land x 255 <= 255)%Z.
Proof.
  change (Z.land x 255) with (Z.land x (Z.ones 8)).
  rewrite Z.land_ones by lia. change (2 ^ 8)%Z with 256%Z.
  pose proof (Z.mod_pos_bound x 256 ltac:(lia)). lia.
Qed.

Lemma ck_round_range ck b :
  (0 <= fst (ck_round ck b) <= 255)%Z /\ (0 <= snd (ck_round ck b) <= 255)%Z.
Proof. unfold ck_round; cbn. split; apply land_255_range. Qed.

Lemma checksum_range msg_class msg_id payload :
  (0 <= fst (calculate_checksum msg_class msg_id payload) <= 255)%Z
  /\ (0 <= snd (calculate_checksum msg_class msg_id payload) <= 255)%Z.
Proof.
  unfold calculate_checksum.
  assert (H : forall l ck,
             (0 <= fst ck <= 255)%Z /\ (0 <= snd ck <= 255)%Z ->
             (0 <= fst (fold_left ck_round l ck) <= 255)%Z
             /\ (0 <= snd (fold_left ck_round l ck) <= 255)%Z).
  { induction l as [|b l IH]; intros ck Hck; [exact Hck|].
    cbn [fold_left]. apply IH, ck_round_range. }
  apply H. cbn. lia.
Qed.

(** The two length bytes as a sum and as the reader computes them. *)
Lemma unpack_H_is_length_field (data : bytes) :
  unpack_H (nth 4 data x00) (nth 5 data x00) = length_field data.
Proof.
  unfold unpack_H, length_field.
  pose proof (byte_val_range (nth 4 data x00)) as Ha.
  pose proof (byte_val_range (nth 5 data x00)) as Hb.
  set (a := byte_val (nth 4 data x00)) in *.
  set (b := byte_val (nth 5 data x00)) in *.
  rewrite Z.shiftl_mul_pow2 by lia.
  rewrite <- Z.add_nocarry_lor; [lia|].
  apply Z.bits_inj'. intros n Hn. rewrite Z.land_spec, Z.bits_0.
  destruct (Z.lt_ge_cases n 8) as [Hlt|Hge].
  - rewrite <- Z.shiftl_mul_pow2 by lia.
    rewrite (Z.shiftl_spec_low b 8 n) by lia. apply andb_false_r.
  - destruct (Z.eq_dec a 0%Z) as [Hz|Hne]; [rewrite Hz, Z.bits_0; reflexivity|].
    rewrite (Z.bits_above_log2 a n); [reflexivity|lia|].
    apply Z.lt_le_trans with 8%Z; [|lia].
    apply Z.log2_lt_pow2; lia.
Qed.

(** A message read back: with the sync pair in front, a class, an id, the
    length of the payload in two bytes, the payload, two more bytes of any
    value and anything behind them, [parse_ubx_response] returns the class,
    the id and the payload.  It does not look at the checksum. *)
Lemma parse_of_layout (c i lo hi a b : byte) (payload extra : bytes) :
  unpack_H lo hi = Z.of_nat (length payload) ->
  parse_ubx_response ([xb5; x62; c; i; lo; hi] ++ payload ++ [a; b] ++ extra)
  = Some (byte_val c, byte_val i, payload).
Proof.
  intros Hlen. unfold parse_ubx_response.
  set (data := [xb5; x62; c; i; lo; hi] ++ payload ++ [a; b] ++ extra).
  assert (Hd : length data = 8 + length payload + length extra).
  { subst data. rewrite !length_app. cbn. lia. }
  assert (Hn : nth 0 data x00 = xb5 /\ nth 1 data x00 = x62
               /\ nth 2 data x00 = c /\ nth 3 data x00 = i
               /\ nth 4 data x00 = lo /\ nth 5 data x00 = hi)
    by (repeat split).
  destruct Hn as (-> & -> & -> & -> & -> & ->).
  destruct (Nat.ltb_spec (length data) 8); [lia|].
  replace (byte_val xb5 =? UBX_SYNC_1)%Z with true by reflexivity.
  replace (byte_val x62 =? UBX_SYNC_2)%Z with true by reflexivity.
  cbn [negb orb]. rewrite Hlen, Hd.
  match goal with
  | |- context [(?x <? ?y)%Z] => destruct (Z.ltb_spec x y); [lia|]
  end.
  rewrite Nat2Z.id. subst data.
  change (drop 6 ([xb5; x62; c; i; lo; hi] ++ payload ++ [a; b] ++ extra))
    with (payload ++ [a; b] ++ extra).
  rewrite take_app_length. reflexivity.
Qed.

Lemma build_then_parse (msg_class msg_id : Z) (payload : bytes) :
  (0 <= msg_class <= 255)%Z ->
  (0 <= msg_id <= 255)%Z ->
  (Z.of_nat (length payload) <= 65535)%Z ->
  exists msg,
    build_ubx_message msg_class msg_id payload = Some msg
    /\ length msg = 8 + length payload
    /\ parse_ubx_response msg = Some (msg_class, msg_id, payload).
Proof.
  intros Hc Hi Hl. unfold build_ubx_message.
  replace (pack_B UBX_SYNC_1) with (Some xb5) by reflexivity.
  replace (pack_B UBX_SYNC_2) with (Some x62) by reflexivity.
  destruct (pack_B_some msg_class Hc) as (c & -> & Hcv).
  destruct (pack_B_some msg_id Hi) as (i & -> & Hiv).
  destruct (pack_H_some (Z.of_nat (length payload)) ltac:(lia)) as (lo & hi & -> & Hlh).
  pose proof (checksum_range msg_class msg_id payload) as [Ha Hb].
  destruct (calculate_checksum msg_class msg_id payload) as [ck_a ck_b].
  cbn [fst snd] in Ha, Hb.
  destruct (pack_B_some ck_a Ha) as (a & -> & _).
  destruct (pack_B_some ck_b Hb) as (b & -> & _).
  eexists. split; [reflexivity|]. split.
  - rewrite !length_app. cbn. lia.
  - change (([xb5; x62; c; i] ++ [lo; hi]) ++ payload)
      with ([xb5; x62; c; i; lo; hi] ++ payload).
    rewrite <- app_assoc, <- (app_nil_r [a; b]).
    change (([a; b] ++ [])) with ([a; b] ++ ([] : bytes)).
    rewrite (parse_of_layout c i lo hi a b payload [] Hlh), Hcv, Hiv.
    reflexivity.
Qed.

(** X10. What was built is read back: for a class and an id that fit a byte and
    a payload of at most 65535 bytes, [build_ubx_message] returns a message
    of eight bytes more than the payload, and [parse_ubx_response] gives the
    class, the id and the payload back from it. *)
Theorem built_message_parses_back (msg_class msg_id : Z) (payload : bytes) :
  (0 <= msg_class <= 255)%Z ->
  (0 <= msg_id <= 255)%Z ->
  (Z.of_nat (length payload) <= 65535)%Z ->
  exists msg,
    build_ubx_message msg_class msg_id payload = Some msg
    /\ length msg = 8 + length payload
    /\ parse_ubx_response msg = Some (msg_class, msg_id, payload).
Proof. apply build_then_parse. Qed.

Lemma built_message_parses_back_witness :
  exists msg,
    build_ubx_message 6 1 [x0a; x09] = Some msg
    /\ length msg = 8 + length [x0a; x09]
    /\ parse_ubx_response msg = Some (6%Z, 1%Z, [x0a; x09]).
Proof.
  apply (built_message_parses_back 6 1 [x0a; x09]); cbn; lia.
Defined.

(** X11. [build_ubx_message] fails, as [struct.pack] does, exactly when the class
    or the id does not fit a byte or the payload is longer than 65535
    bytes. *)
Theorem build_fails_out_of_range (msg_class msg_id : Z) (payload : bytes) :
  build_ubx_message msg_class msg_id payload = None
  <-> ~ ((0 <= msg_class <= 255)%Z /\ (0 <= msg_id <= 255)%Z
         /\ (Z.of_nat (length payload) <= 65535)%Z).
Proof.
  split.
  - intros Hnone (Hc & Hi & Hl).
    destruct (build_then_parse msg_class msg_id payload Hc Hi Hl)
      as (msg & Hsome & _). congruence.
  - intros Hn. unfold build_ubx_message.
    replace (pack_B UBX_SYNC_1) with (Some xb5) by reflexivity.
    replace (pack_B UBX_SYNC_2) with (Some x62) by reflexivity.
    destruct (Z_le_dec 0 msg_class), (Z_le_dec msg_class 255);
      try (rewrite (pack_B_none msg_class) by lia; reflexivity).
    destruct (pack_B_some msg_class ltac:(lia)) as (c & -> & _).
    destruct (Z_le_dec 0 msg_id), (Z_le_dec msg_id 255);
      try (rewrite (pack_B_none msg_id) by lia; reflexivity).
    destruct (pack_B_some msg_id ltac:(lia)) as (i & -> & _).
    rewrite pack_H_none by lia. reflexivity.
Qed.

(** ** The tool and the reader on the same message *)

Lemma frame_ok_parses f :
  frame_ok f ->
  exists msg_class msg_id payload,
    parse_ubx_response f = Some (msg_class, msg_id, payload)
    /\ length f = 8 + length payload.
Proof.
  intros (body & a & b & Hf & _ & Hlen & _).
  pose proof (length_field_nonneg f) as Hnn.
  destruct body as [|c [|i [|lo [|hi payload]]]]; cbn [length] in Hlen; try lia.
  assert (Hu : unpack_H lo hi = Z.of_nat (length payload)).
  { assert (Hu : unpack_H lo hi = length_field f).
    { rewrite <- unpack_H_is_length_field, Hf. reflexivity. }
    rewrite Hu. lia. }
  exists (byte_val c), (byte_val i), payload. split.
  - rewrite Hf.
    change (UBX_SYNC_CHAR_1 :: UBX_SYNC_CHAR_2 :: (c :: i :: lo :: hi :: payload) ++ [a; b])
      with ([xb5; x62; c; i; lo; hi] ++ payload ++ [a; b] ++ []).
    apply parse_of_layout, Hu.
  - rewrite Hf. cbn. rewrite length_app. cbn. lia.
Qed.

(** X12. Every frame the reader puts in its buffer is read by
    [parse_ubx_response] as one whole message: a class, an id and a payload
    that is eight bytes shorter than the frame. *)
Theorem emitted_frames_are_read_by_the_tool (chunks : list bytes) :
  Forall (fun f => exists msg_class msg_id payload,
              parse_ubx_response f = Some (msg_class, msg_id, payload)
              /\ length f = 8 + length payload)
         (ubx_buffer (feed init chunks)).
Proof.
  eapply Forall_impl; [|intros f; apply frame_ok_parses].
  apply (feed_keeps (fun r => Forall frame_ok (ubx_buffer r))).
  - apply body_keeps_frames.
  - intros r H. exact H.
  - constructor.
Qed.

(** X13. A poll request, that is a message with an empty payload, as the tool
    builds it, passes the reader's checksum check exactly when class plus id
    is a multiple of 128: the tool sums class, id and payload, the reader
    sums the two length bytes as well. *)
Theorem poll_request_checksum_against_reader (msg_class msg_id : Z) :
  (0 <= msg_class <= 255)%Z ->
  (0 <= msg_id <= 255)%Z ->
  exists msg,
    build_ubx_message msg_class msg_id [] = Some msg
    /\ (_validate_ubx_checksum msg = true <-> ((msg_class + msg_id) mod 128 = 0)%Z).
Proof.
  intros Hc Hi. unfold build_ubx_message.
  replace (pack_B UBX_SYNC_1) with (Some xb5) by reflexivity.
  replace (pack_B UBX_SYNC_2) with (Some x62) by reflexivity.
  destruct (pack_B_some msg_class Hc) as (c & -> & Hcv).
  destruct (pack_B_some msg_id Hi) as (i & -> & Hiv).
  replace (pack_H (Z.of_nat (length ([] : bytes)))) with (Some [x00; x00])
    by reflexivity.
  unfold calculate_checksum. cbn [map app fold_left ck_round fst snd].
  set (a1 := Z.land (0 + msg_class) 255).
  set (b1 := Z.land (0 + a1) 255).
  set (a2 := Z.land (a1 + msg_id) 255).
  set (b2 := Z.land (b1 + a2) 255).
  destruct (pack_B_some a2 (land_255_range _)) as (a & -> & Hav).
  destruct (pack_B_some b2 (land_255_range _)) as (b & -> & Hbv).
  eexists. split; [reflexivity|].
  unfold _validate_ubx_checksum, checked_part, ubx_checksum.
  cbn [app length Nat.ltb Nat.leb Nat.sub take drop firstn skipn nth
       fold_left ck_step fst snd].
  rewrite Hcv, Hiv, Hav, Hbv.
  replace (byte_val x00) with 0%Z by reflexivity.
  fold a1. fold b1. fold a2. fold b2.
  assert (Hland : forall x, Z.land x 255 = (x mod 256)%Z).
  { intros x. change (Z.land x 255) with (Z.land x (Z.ones 8)).
    rewrite Z.land_ones by lia. reflexivity. }
  subst a1 b1 a2 b2. rewrite !Hland.
  rewrite andb_true_iff, !Z.eqb_eq.
  split.
  - intros [_ H]. revert H. Z.div_mod_to_equations. lia.
  - intros H. split; revert H; Z.div_mod_to_equations; lia.
Qed.

Lemma poll_request_checksum_against_reader_witness :
  exists msg,
    build_ubx_message 10 4 [] = Some msg
    /\ (_validate_ubx_checksum msg = true <-> ((10 + 4) mod 128 = 0)%Z).
Proof.
  apply (poll_request_checksum_against_reader 10 4); lia.
Defined.

End QueryFacts.

(** * Properties of the stream monitor *)

Section MonitorFacts.
Import Monitor.

Lemma monitor_loop_keeps (P : StreamMonitor -> Prop) :
  (forall m i m' i', loop_body m i = Continue m' i' -> P m -> P m') ->
  forall m i, P m -> P (fst (loop m i)).
Proof.
  intros Hbody.
  apply (loop_elim (fun m i res => P m -> P (fst res))).
  - intros m i e _ Hm. exact Hm.
  - intros m i m' i' Hb Hi IH _ _ Hm. apply IH. eapply Hbody; eassumption.
  - intros m i e Hi _ _ Hm. exact Hm.
Qed.

Lemma parse_ubx_buffer m d : buffer (parse_ubx m d) = buffer m.
Proof. unfold parse_ubx. destruct (_ <? _); reflexivity. Qed.

Lemma parse_nmea_buffer m l : buffer (parse_nmea m l) = buffer m.
Proof.
  unfold parse_nmea. destruct (startswith _ _); [|reflexivity].
  destruct (split _ _); [reflexivity|]. destruct (_ <=? _); reflexivity.
Qed.

(** A pass that goes on has run one of the two counting functions, or
    none. *)
Lemma body_continues m i m' i' :
  loop_body m i = Continue m' i' ->
  (exists d, m' = parse_ubx m d) \/ (exists l, m' = parse_nmea m l) \/ m' = m.
Proof.
  unfold loop_body.
  destruct (_ && _).
  - destruct (_ <=? _); [|discriminate].
    destruct (_ <=? _)%Z; [|discriminate].
    intros Hb. inversion Hb; subst. left. eauto.
  - destruct (Byte.eqb _ x24).
    + destruct (find_from _ _ _); [|discriminate].
      intros Hb. inversion Hb; subst. right. left. eauto.
    + intros Hb. inversion Hb; subst. right. right. reflexivity.
Qed.

Lemma body_keeps_buffer m i m' i' :
  loop_body m i = Continue m' i' -> buffer m' = buffer m.
Proof.
  intros Hb. apply body_continues in Hb as [[d ->]|[[l ->]| ->]].
  - apply parse_ubx_buffer.
  - apply parse_nmea_buffer.
  - reflexivity.
Qed.

(** Where the loop stops: behind the buffer, or at an index where the body
    breaks; the buffer itself is not touched on the way. *)
Lemma monitor_loop_stops m i :
  buffer (fst (loop m i)) = buffer m
  /\ (length (buffer m) <= snd (loop m i)
      \/ (snd (loop m i) < length (buffer m)
          /\ loop_body (fst (loop m i)) (snd (loop m i)) = Break)).
Proof.
  apply (loop_elim (fun m i res =>
           buffer (fst res) = buffer m
           /\ (length (buffer m) <= snd res
               \/ (snd res < length (buffer m)
                   /\ loop_body (fst res) (snd res) = Break)))).
  - intros m0 i0 e _. apply Nat.ltb_ge in e. cbn. auto.
  - intros m0 i0 m' i' Hb Hi [IHb IHs] _ _.
    pose proof (body_keeps_buffer _ _ _ _ Hb) as Hbuf.
    rewrite Hbuf in *. auto.
  - intros m0 i0 e Hi _ _. apply Nat.ltb_lt in Hi. cbn. auto.
Qed.

Lemma index_of_none b l : index_of b l = None -> ~ In b l.
Proof.
  induction l as [|x l IH]; cbn; [tauto|].
  destruct (Byte.eqb x b) eqn:E; [discriminate|].
  destruct (index_of b l); [discriminate|].
  intros _ [H|H]; [|exact (IH eq_refl H)].
  subst. rewrite (@Byte.byte_dec_lb b b eq_refl) in E. discriminate.
Qed.

Lemma drop_two (l : bytes) i :
  i + 1 < length l ->
  drop i l = nth i l x00 :: nth (i + 1) l x00 :: drop (i + 2) l.
Proof.
  intros H. rewrite (drop_nth l i) by lia.
  rewrite (drop_nth l (S i)) by lia.
  replace (i + 1) with (S i) by lia. replace (i + 2) with (S (S i)) by lia.
  reflexivity.
Qed.

(** X14. Between calls the buffer holds nothing, or starts with the sync pair
    of a message still incomplete (fewer than six bytes, or fewer than the
    header's length field plus eight), or starts with [$] and has no line
    feed yet: whatever was complete, or could start nothing, has been
    passed. *)
Theorem monitor_keeps_only_unfinished (m : StreamMonitor) (data : bytes) :
  unfinished (buffer (process_data m data)).
Proof.
  unfold process_data.
  set (m0 := mkMonitor (nmea_counts m) (ubx_counts m) (ubx_sizes m) (buffer m ++ data)).
  pose proof (monitor_loop_stops m0 0) as [Hbuf Hstop].
  destruct (loop m0 0) as [m' j]. cbn [fst snd buffer] in *.
  rewrite Hbuf. set (buf := buffer m0) in *.
  destruct Hstop as [Hge|[Hlt Hbreak]].
  - left. apply drop_ge. exact Hge.
  - right. unfold loop_body in Hbreak. rewrite Hbuf in Hbreak. fold buf in Hbreak.
    destruct ((j <? length buf - 1) && Byte.eqb (nth j buf x00) xb5
              && Byte.eqb (nth (j + 1) buf x00) x62) eqn:Hsync.
    + left. apply andb_true_iff in Hsync as [Hsync H2].
      apply andb_true_iff in Hsync as [Hj H1].
      apply Nat.ltb_lt in Hj.
      apply Byte.byte_dec_bl in H1, H2.
      split.
      * exists (drop (j + 2) buf). rewrite (drop_two buf j) by lia.
        rewrite H1, H2. reflexivity.
      * rewrite length_drop, !nth_drop.
        destruct (j + 6 <=? length buf) eqn:H6.
        -- right. apply Nat.leb_le in H6.
           destruct (_ <=? _)%Z eqn:Ht; [discriminate|].
           apply Z.leb_gt in Ht. lia.
        -- left. apply Nat.leb_gt in H6. lia.
    + destruct (Byte.eqb (nth j buf x00) x24) eqn:Hd; [|discriminate].
      apply Byte.byte_dec_bl in Hd.
      unfold find_from in Hbreak.
      destruct (index_of x0a (drop j buf)) eqn:Hi; [discriminate|].
      right. exists (drop (S j) buf). split.
      * rewrite (drop_nth buf j) by lia. rewrite Hd. reflexivity.
      * apply index_of_none. exact Hi.
Qed.

(** ** The two tallies *)

Lemma unpack_H_range lo hi : (0 <= Query.unpack_H lo hi <= 65535)%Z.
Proof.
  unfold Query.unpack_H.
  pose proof (byte_val_range lo). pose proof (byte_val_range hi). lia.
Qed.

Lemma parse_ubx_keeps_tallies m d :
  tallies_agree m -> tallies_agree (parse_ubx m d).
Proof.
  intros H. unfold parse_ubx. destruct (_ <? _); [exact H|].
  set (k := (byte_val (nth 2 d x00), byte_val (nth 3 d x00))).
  set (len := Query.unpack_H (nth 4 d x00) (nth 5 d x00)).
  pose proof (unpack_H_range (nth 4 d x00) (nth 5 d x00)) as Hr. fold len in Hr.
  intros key. cbn [ubx_counts ubx_sizes]. unfold bump, push.
  destruct (decide (k = key)) as [<-|Hne].
  - rewrite !lookup_insert_eq. specialize (H k).
    destruct (ubx_counts m !! k) as [n|], (ubx_sizes m !! k) as [sizes|];
      cbn; try contradiction.
    + destruct H as (Hn & _ & Hall). repeat split.
      * rewrite length_app. cbn. lia.
      * intros Hnil. apply app_eq_nil in Hnil as [_ Hnil]. discriminate.
      * apply Forall_app; split; [exact Hall|]. constructor; [lia|constructor].
    + repeat split; [discriminate|]. constructor; [lia|constructor].
  - rewrite !lookup_insert_ne by exact Hne. apply H.
Qed.

Lemma parse_nmea_keeps_tallies m l :
  tallies_agree m -> tallies_agree (parse_nmea m l).
Proof.
  intros H. unfold parse_nmea.
  destruct (startswith _ _); [|exact H].
  destruct (split _ _); [exact H|].
  destruct (_ <=? _); exact H.
Qed.

Lemma process_keeps_tallies m data :
  tallies_agree m -> tallies_agree (process_data m data).
Proof.
  intros H. unfold process_data.
  set (m0 := mkMonitor (nmea_counts m) (ubx_counts m) (ubx_sizes m) (buffer m ++ data)).
  assert (H0 : tallies_agree m0) by exact H.
  assert (Hk : tallies_agree (fst (loop m0 0))).
  { apply monitor_loop_keeps; [|exact H0].
    intros m1 i m1' i' Hb Hm.
    apply body_continues in Hb as [[d ->]|[[l ->]| ->]].
    - apply parse_ubx_keeps_tallies, Hm.
    - apply parse_nmea_keeps_tallies, Hm.
    - exact Hm. }
  destruct (loop m0 0) as [m' j]. exact Hk.
Qed.

(** X15. After any reads, every kind of message that was counted has as many
    recorded sizes as its count says, so at least one, and each size is
    between 8 and 65543 bytes: the average and the maximum that the report
    takes over the sizes of a counted kind are over a non-empty list. *)
Theorem monitor_tallies_agree (chunks : list bytes) :
  tallies_agree (feed init chunks).
Proof.
  unfold feed.
  assert (H : forall m, tallies_agree m -> tallies_agree (fold_left process_data chunks m)).
  { induction chunks as [|c chunks IH]; intros m Hm; [exact Hm|].
    cbn. apply IH, process_keeps_tallies, Hm. }
  apply H. intros key. cbn. rewrite !lookup_empty. exact I.
Qed.

End MonitorFacts.

(** * Further properties of the archival routines *)

Section ArchiveMoreFacts.
Import Archive ArchiveMore.

Ltac split_cases :=
  repeat (match goal with
          | |- context [match ?x with _ => _ end] =>
              lazymatch x with
              | context [match _ with _ => _ end] => fail
              | _ => destruct x eqn:?
              end
          end; cbn; rewrite ?lookup_insert_eq).

Ltac open_routine :=
  unfold run, _compress_and_checksum, atomic_compress_and_checksum,
    checksum_and_rename, try_except, bind, ret, path_exists,
    run_zstd, os_sync, run_sha256sum, write_synced, os_replace, os_remove,
    fail, put_debris, put_file, emit;
  cbn.

Ltac through_lookups :=
  repeat first [ rewrite lookup_insert_eq | rewrite lookup_delete_eq
               | rewrite lookup_insert_ne by congruence
               | rewrite lookup_delete_ne by congruence ].

Ltac footprint routine_unfold :=
  let w := fresh "w" in let fs := fresh "fs" in
  let src := fresh "src" in let p := fresh "p" in let Hp := fresh "Hp" in
  intros w fs src p Hp;
  assert (p <> src /\ p <> zst_tmp_of src /\ p <> zst_final_of src
          /\ p <> sha_final_of src /\ p <> sha_tmp_of src)
    as (? & ? & ? & ? & ?)
    by (unfold own_paths in Hp; cbn in Hp; intuition congruence);
  open_routine; split_cases; through_lookups; reflexivity.

Lemma service_routine_footprint : stays_in_footprint _compress_and_checksum.
Proof. footprint tt. Qed.

Lemma logger_routine_footprint : stays_in_footprint atomic_compress_and_checksum.
Proof. footprint tt. Qed.

(** X16. Neither routine changes a file other than the source, the two temporary
    files and the two artifacts of the path it is called for. *)
Theorem archival_stays_in_its_footprint :
  stays_in_footprint _compress_and_checksum
  /\ stays_in_footprint atomic_compress_and_checksum.
Proof. split; [exact service_routine_footprint|exact logger_routine_footprint]. Qed.

Ltac lookups_in_hyps :=
  repeat match goal with
         | H : context [<[_:=_]> _ !! _] |- _ =>
             first [ rewrite lookup_insert_eq in H
                   | rewrite lookup_insert_ne in H by congruence ]
         | H : context [delete _ _ !! _] |- _ =>
             first [ rewrite lookup_delete_eq in H
                   | rewrite lookup_delete_ne in H by congruence ]
         end.

Ltac complete :=
  let Hsrc := fresh "Hsrc" in let Hnot := fresh "Hnot" in
  let Hboth := fresh "Hboth" in
  intros w fs src content z out Hsrc Hnot (Hi & Hz & Hs & Hw & Hr1 & Hr2 & Hrm);
  destruct (paths_distinct src)
    as (N1 & N2 & N3 & N4 & N5 & N6 & N7 & N8 & N9 & N10);
  open_routine;
  destruct (bool_decide (is_Some (fs !! zst_final_of src))
            && bool_decide (is_Some (fs !! sha_final_of src))) eqn:Hboth;
  [ exfalso; apply Hnot; apply andb_true_iff in Hboth as [H1 H2];
    apply bool_decide_eq_true in H1, H2; auto |];
  cbn [files]; rewrite ?Hsrc;
  rewrite ?bool_decide_eq_true_2 by eauto; rewrite ?Hi; cbn;
  split_cases; lookups_in_hyps;
  try congruence;
  repeat split; through_lookups; congruence.

Lemma service_routine_completes : archives_completely _compress_and_checksum.
Proof. unfold archives_completely. complete. Qed.

Lemma logger_routine_completes : archives_completely atomic_compress_and_checksum.
Proof. unfold archives_completely. complete. Qed.

(** X17. When every step succeeds, either routine runs its seven steps in order
    and returns; the artifact then holds the compressed source, the sidecar
    what [sha256sum] printed for the temporary file name, and the source and
    both temporary files are gone. *)
Theorem archival_completes_when_steps_succeed :
  archives_completely _compress_and_checksum
  /\ archives_completely atomic_compress_and_checksum.
Proof. split; [exact service_routine_completes|exact logger_routine_completes]. Qed.

Lemma archival_completes_when_steps_succeed_witness :
  let '(s', res) := run _compress_and_checksum calm_world one_hour hour_file in
  res = inr tt
  /\ trace s' = full_trace hour_file
  /\ files s' !! zst_final_of hour_file = Some [x28; xb5; x2f; xfd; xb5; x62]
  /\ files s' !! sha_final_of hour_file
     = Some [x30; x20; x20; x28; xb5; x2f; xfd; xb5; x62]
  /\ files s' !! hour_file = None
  /\ files s' !! zst_tmp_of hour_file = None
  /\ files s' !! sha_tmp_of hour_file = None.
Proof.
  apply (proj1 archival_completes_when_steps_succeed calm_world one_hour
           hour_file [xb5; x62]).
  - reflexivity.
  - intros [[x Hx] _]. vm_compute in Hx. discriminate.
  - repeat split.
Defined.

Ltac published :=
  intros w fs src;
  destruct (paths_distinct src)
    as (N1 & N2 & N3 & N4 & N5 & N6 & N7 & N8 & N9 & N10);
  open_routine; split_cases; lookups_in_hyps;
  (split; intros Hch;
   first
     [ solve [exfalso; apply Hch; through_lookups; reflexivity]
     | split;
       [ cbn; tauto
       | repeat eexists; try eassumption; through_lookups; congruence ] ]).

Lemma service_routine_publishes : publishes_by_rename _compress_and_checksum.
Proof. unfold publishes_by_rename. published. Qed.

Lemma logger_routine_publishes : publishes_by_rename atomic_compress_and_checksum.
Proof. unfold publishes_by_rename. published. Qed.

(** X18. In both routines a final name changes only when its rename succeeded,
    and what is then under that name is a complete output, never what a
    failed step left behind. *)
Theorem artifacts_appear_only_complete :
  publishes_by_rename _compress_and_checksum
  /\ publishes_by_rename atomic_compress_and_checksum.
Proof. split; [exact service_routine_publishes|exact logger_routine_publishes]. Qed.

End ArchiveMoreFacts.

(** * Further properties of the senders *)

Section SenderMoreFacts.
Import Sender SenderMore.
Context {coord time : Type}.
Variable config : Config coord.

Lemma send_all_counters (s : NetworkSender)
    (calls : list (Outside time * list string * list string)) :
  let s' := fst (send_all config s calls) in
  let n_accepted :=
    length (List.filter (fun c => accepted (fst (fst c))) calls) in
  batches_sent s' = (batches_sent s + Z.of_nat n_accepted)%Z
  /\ (batches_sent s' + batches_failed s'
      = batches_sent s + batches_failed s + Z.of_nat (length calls))%Z
  /\ sequence_number s' = (sequence_number s + Z.of_nat (length calls))%Z.
Proof.
  revert s. induction calls as [|[[o nmea_lines] ubx_base64] calls IH]; intros s.
  - cbn. lia.
  - cbn [send_all List.filter fst]. unfold send_batch, accepted at 1.
    destruct (post o) as [code|] eqn:Hpost; [destruct (code =? 202)%Z|].
    all: match goal with
         | |- context [send_all _ ?s1 _] => specialize (IH s1)
         end;
      destruct (send_all _ _ _) as [s'' batches];
      cbn [fst batches_sent batches_failed sequence_number length] in *; lia.
Qed.

(** X19. After any calls of [send_batch] on a new sender, the sequence number is
    the number of calls, the accepted and the failed batches add up to it,
    and the accepted ones are the calls answered with status 202: every call
    is counted once, as sent or as failed. *)
Theorem every_send_is_counted_once
    (calls : list (Outside time * list string * list string)) :
  let s := fst (send_all config NetworkSender_init calls) in
  sequence_number s = Z.of_nat (length calls)
  /\ (batches_sent s + batches_failed s = sequence_number s)%Z
  /\ batches_sent s
     = Z.of_nat (length (List.filter (fun c => accepted (fst (fst c))) calls)).
Proof.
  pose proof (send_all_counters NetworkSender_init calls) as (H1 & H2 & H3).
  cbn in *. lia.
Qed.

(** ** Batches of the stand-alone sender *)

Lemma feed_app r (a b : list bytes) :
  Reader.feed r (a ++ b) = Reader.feed (Reader.feed r a) b.
Proof. unfold Reader.feed. apply fold_left_app. Qed.

Lemma feed_after_clearing r chunks :
  Reader.feed r chunks
  = ReaderMore.rebase (Reader.nmea_buffer r) (Reader.ubx_buffer r)
      (Reader.feed (Reader.clear_buffers r) chunks).
Proof.
  rewrite <- feed_rebase. f_equal.
  destruct r; unfold ReaderMore.rebase, Reader.clear_buffers; cbn.
  rewrite !app_nil_r. reflexivity.
Qed.

Lemma create_all_partitions (cycles : list (list bytes * Outside time)) :
  forall g,
    Reader.nmea_buffer (reader g) = [] ->
    Reader.ubx_buffer (reader g) = [] ->
    let '(g', batches) := create_all config g cycles in
    let r := Reader.feed (reader g) (concat (map fst cycles)) in
    concat (map nmea_raw batches) = Reader.nmea_buffer r
    /\ concat (map ubx_raw batches) = map b64encode (Reader.ubx_buffer r)
    /\ reader g' = Reader.clear_buffers r.
Proof.
  induction cycles as [|[chunks o] cycles IH]; intros g Hn Hu.
  - cbn. rewrite Hn, Hu. repeat split.
    destruct g as [n r]; destruct r; cbn in *; subst. reflexivity.
  - cbn [create_all map concat fst].
    unfold create_batch, Reader.get_buffered_data. cbn [g_sequence_number reader].
    set (r1 := Reader.feed (reader g) chunks).
    match goal with
    | |- context [create_all config ?g1 cycles] => specialize (IH g1)
    end.
    cbn [reader] in IH. specialize (IH eq_refl eq_refl).
    destruct (create_all config _ cycles) as [g'' batches].
    destruct IH as (IHn & IHu & IHr).
    cbn [map concat nmea_raw ubx_raw build_batch].
    rewrite feed_app. fold r1.
    rewrite (feed_after_clearing r1).
    cbn [Reader.nmea_buffer Reader.ubx_buffer ReaderMore.rebase].
    rewrite IHn, IHu, map_app.
    split; [reflexivity|]. split; [reflexivity|].
    rewrite IHr. reflexivity.
Qed.

(** X20. The batches of the stand-alone sender, taken together, hold every
    record and every frame that the reader makes of the whole stream, each
    once and in order, the frames in base64: cutting the stream into send
    cycles loses nothing and repeats nothing. *)
Theorem batches_partition_the_stream (cycles : list (list bytes * Outside time)) :
  let batches := snd (create_all config GroundNodeSender_init cycles) in
  let r := Reader.feed Reader.init (concat (map fst cycles)) in
  concat (map nmea_raw batches) = Reader.nmea_buffer r
  /\ concat (map ubx_raw batches) = map b64encode (Reader.ubx_buffer r).
Proof.
  pose proof (create_all_partitions cycles GroundNodeSender_init eq_refl eq_refl) as H.
  destruct (create_all config GroundNodeSender_init cycles) as [g' batches].
  cbn in *. destruct H as (Hn & Hu & _). split; assumption.
Qed.

End SenderMoreFacts.

(** * Properties of the reading loop *)

Section ReadLoopFacts.
Import Reader ReadLoop.

(** X21. With fewer than ten failed turns in all, the loop does not break, and
    the reader has been given every chunk that was read, in order. *)
Theorem few_failures_are_survived (r : GNSSReader) (turns : list Turn) (errors : nat) :
  errors + failures turns < max_consecutive_errors ->
  _read_loop r errors turns = (feed r (chunks_of turns), false).
Proof.
  revert r errors. induction turns as [|t turns IH]; intros r errors H.
  - reflexivity.
  - destruct t as [data| |]; cbn [_read_loop chunks_of failures] in *.
    + rewrite IH by (unfold max_consecutive_errors in *; lia). reflexivity.
    + apply IH. exact H.
    + destruct (Nat.leb_spec max_consecutive_errors (errors + 1)); [lia|].
      apply IH. lia.
Qed.

Lemma few_failures_are_survived_witness :
  _read_loop init 0 [Failed; Data (take 5 gga_line); Idle; Failed; Data (drop 5 gga_line)]
  = (feed init (chunks_of [Failed; Data (take 5 gga_line); Idle; Failed;
                           Data (drop 5 gga_line)]), false).
Proof.
  apply few_failures_are_survived. unfold max_consecutive_errors. cbn. lia.
Defined.

(** X22. Ten failed turns with no data read between them end the loop, whatever
    idle turns lie among them; the reader is left as it was, and what would
    have come afterwards is not read. *)
Theorem ten_failures_without_data_stop_the_loop
    (r : GNSSReader) (stretch rest : list Turn) (errors : nat) :
  Forall no_data stretch ->
  max_consecutive_errors <= errors + failures stretch ->
  errors < max_consecutive_errors ->
  _read_loop r errors (stretch ++ rest) = (r, true).
Proof.
  revert errors. induction stretch as [|t stretch IH]; intros errors Hn Hf He.
  - cbn in Hf. lia.
  - inversion Hn as [|? ? Ht Hs]; subst.
    destruct t as [data| |]; cbn [no_data] in Ht; [contradiction| |];
      cbn [app _read_loop failures] in *.
    + apply IH; assumption.
    + destruct (Nat.leb_spec max_consecutive_errors (errors + 1)); [reflexivity|].
      apply IH; [assumption|lia|lia].
Qed.

Lemma ten_failures_without_data_stop_the_loop_witness :
  _read_loop init 0
    ([Failed; Failed; Idle; Failed; Failed; Failed; Idle; Failed; Failed;
      Failed; Failed; Failed] ++ [Data gga_line])
  = (init, true).
Proof.
  apply ten_failures_without_data_stop_the_loop.
  - repeat constructor.
  - unfold max_consecutive_errors. cbn. lia.
  - unfold max_consecutive_errors. lia.
Defined.

End ReadLoopFacts.

(** * Properties of the rotation *)

Section RotationFacts.
Import Archive ArchiveMore Rotation.

Lemma append_assoc a b c :
  String.append (String.append a b) c = String.append a (String.append b c).
Proof.
  induction a as [|x a IH]; [reflexivity|].
  change (String x (String.append (String.append a b) c)
          = String x (String.append a (String.append b c))).
  rewrite IH. reflexivity.
Qed.

Lemma append_cancel a b c : String.append a b = String.append a c -> b = c.
Proof.
  induction a as [|x a IH]; [exact id|].
  intros H. apply IH.
  change (String x (String.append a b) = String x (String.append a c)) in H.
  inversion H. reflexivity.
Qed.

(** The five paths of the [.ubx] file and the five of the [.nmea] file of
    one hour have no path in common. *)
Lemma hour_footprints_apart base p :
  In p (own_paths (snd (hour_pair base))) ->
  ~ In p (own_paths (fst (hour_pair base))).
Proof.
  unfold own_paths, hour_pair, zst_tmp_of, zst_final_of, sha_tmp_of, sha_final_of.
  cbn [fst snd In]. intros Hu Hn.
  repeat match goal with
         | H : _ \/ _ |- _ => destruct H as [H|H]
         | H : False |- _ => destruct H
         end; subst p;
    rewrite ?append_assoc in *;
    match goal with
    | H : String.append base _ = _ |- _ =>
        apply append_cancel in H; discriminate H
    end.
Qed.

Ltac split_more :=
  repeat (match goal with
          | |- context [match ?x with _ => _ end] =>
              lazymatch x with
              | context [match _ with _ => _ end] => fail
              | _ => destruct x eqn:?
              end
          end; cbn; rewrite ?lookup_insert_eq).

Ltac open_more :=
  unfold run, _compress_and_checksum, atomic_compress_and_checksum,
    checksum_and_rename, try_except, bind, ret, path_exists,
    run_zstd, os_sync, run_sha256sum, write_synced, os_replace, os_remove,
    fail, put_debris, put_file, emit;
  cbn.

(** What a routine does to the files and how it ends do not depend on the
    trace it starts with; its events are added behind that trace. *)
Lemma service_routine_any_trace w src fs tr :
  _compress_and_checksum w src (mkState fs tr)
  = let '(s', res) := run _compress_and_checksum w fs src in
    (mkState (files s') (tr ++ trace s'), res).
Proof.
  open_more. split_more; rewrite <- ?app_assoc, ?app_nil_r; reflexivity.
Qed.

Lemma logger_routine_any_trace w src fs tr :
  atomic_compress_and_checksum w src (mkState fs tr)
  = let '(s', res) := run atomic_compress_and_checksum w fs src in
    (mkState (files s') (tr ++ trace s'), res).
Proof.
  open_more. split_more; rewrite <- ?app_assoc, ?app_nil_r; reflexivity.
Qed.

(** The first half of the service's rotation: it returns, and leaves the
    files outside the footprint of its path as they were. *)
Lemma service_first_half w fs src :
  exists s1,
    archive_if_present _compress_and_checksum w src (mkState fs []) = (s1, inr tt)
    /\ forall p, ~ In p (own_paths src) -> files s1 !! p = fs !! p.
Proof.
  unfold archive_if_present, bind, path_exists. cbn [files].
  destruct (bool_decide (is_Some (fs !! src))).
  - pose proof (service_routine_returns w fs src) as Hret.
    pose proof (service_routine_footprint w fs src) as Hfoot.
    unfold run in *.
    destruct (_compress_and_checksum w src (mkState fs [])) as [s1 r1].
    cbn in *. subst r1. exists s1. split; [reflexivity|exact Hfoot].
  - exists (mkState fs []). split; [reflexivity|]. reflexivity.
Qed.

(** X23. In the service's rotation the [.ubx] file is archived whenever its own
    steps succeed, whatever happened while the [.nmea] file was archived:
    a failure there is caught and the loop goes on to the second file. *)
Theorem rotation_archives_second_file_regardless
    (w_nmea w_ubx : World) (fs : gmap string bytes) (base : string)
    (content z out : bytes) :
  let ubx := snd (hour_pair base) in
  fs !! ubx = Some content ->
  ~ (is_Some (fs !! zst_final_of ubx) /\ is_Some (fs !! sha_final_of ubx)) ->
  all_steps_succeed w_ubx ubx content z out ->
  let '(s', res) := _rotate_previous_hour w_nmea w_ubx base (mkState fs []) in
  res = inr tt
  /\ files s' !! zst_final_of ubx = Some z
  /\ files s' !! sha_final_of ubx = Some out
  /\ files s' !! ubx = None.
Proof.
  intros ubx Hsrc Hnot Hok.
  unfold _rotate_previous_hour.
  change (hour_pair base) with (fst (hour_pair base), ubx). cbn iota.
  unfold bind at 1.
  destruct (service_first_half w_nmea fs (fst (hour_pair base))) as (s1 & -> & Hkeep).
  assert (Hu : forall p, In p (own_paths ubx) -> files s1 !! p = fs !! p).
  { intros p Hp. apply Hkeep, hour_footprints_apart, Hp. }
  unfold archive_if_present, bind, path_exists.
  rewrite (Hu ubx) by (left; reflexivity).
  rewrite bool_decide_eq_true_2 by (rewrite Hsrc; eauto).
  destruct s1 as [fs1 tr1]. cbn [files] in *.
  rewrite service_routine_any_trace.
  pose proof (service_routine_completes w_ubx fs1 ubx content z out) as Hc.
  rewrite (Hu ubx) in Hc by (left; reflexivity).
  rewrite (Hu (zst_final_of ubx)) in Hc by (right; right; left; reflexivity).
  rewrite (Hu (sha_final_of ubx)) in Hc by (right; right; right; left; reflexivity).
  specialize (Hc Hsrc Hnot Hok).
  destruct (run _compress_and_checksum w_ubx fs1 ubx) as [s2 r2].
  destruct Hc as (Hr & _ & Hz & Hs & Hgone & _). cbn [files].
  repeat split; assumption.
Qed.

Lemma rotation_archives_second_file_regardless_witness :
  let '(s', res) :=
    _rotate_previous_hour world_without_zstd calm_world hour_base
      (mkState {[ String.append hour_base ".nmea" := [x24];
                  String.append hour_base ".ubx" := [xb5; x62] ]} []) in
  res = inr tt
  /\ files s' !! zst_final_of (snd (hour_pair hour_base))
     = Some [x28; xb5; x2f; xfd; xb5; x62]
  /\ files s' !! sha_final_of (snd (hour_pair hour_base))
     = Some [x30; x20; x20; x28; xb5; x2f; xfd; xb5; x62]
  /\ files s' !! snd (hour_pair hour_base) = None.
Proof.
  apply (rotation_archives_second_file_regardless world_without_zstd calm_world
           _ hour_base [xb5; x62]).
  - reflexivity.
  - intros [[x Hx] _]. vm_compute in Hx. discriminate.
  - repeat split.
Defined.

(** X24. In the file logger's rotation an exception while the [.nmea] file is
    archived ends the rotation with that exception: the [.ubx] file, its
    temporary files and its artifacts are left as they were. *)
Theorem logger_rotation_stops_at_first_exception
    (w_nmea w_ubx : World) (fs : gmap string bytes) (base : string)
    (e : exn) :
  is_Some (fs !! fst (hour_pair base)) ->
  snd (run atomic_compress_and_checksum w_nmea fs (fst (hour_pair base))) = inl e ->
  let '(s', res) := rotate_previous_hour w_nmea w_ubx base (mkState fs []) in
  res = inl e
  /\ Forall (fun p => files s' !! p = fs !! p) (own_paths (snd (hour_pair base))).
Proof.
  intros Hpresent Hraise.
  unfold rotate_previous_hour.
  change (hour_pair base) with (fst (hour_pair base), snd (hour_pair base)).
  cbn iota. unfold bind at 1. unfold archive_if_present at 1.
  unfold bind at 1, path_exists at 1. cbn [files].
  rewrite bool_decide_eq_true_2 by exact Hpresent.
  pose proof (logger_routine_footprint w_nmea fs (fst (hour_pair base))) as Hfoot.
  unfold run in *.
  destruct (atomic_compress_and_checksum w_nmea (fst (hour_pair base)) (mkState fs []))
    as [s1 r1].
  cbn [fst snd] in *. subst r1. split; [reflexivity|].
  apply Forall_forall. intros p Hp. apply Hfoot.
  apply hour_footprints_apart, list_elem_of_In, Hp.
Qed.

Lemma logger_rotation_stops_at_first_exception_witness :
  let '(s', res) :=
    rotate_previous_hour world_with_failing_sha256sum calm_world hour_base
      (mkState {[ String.append hour_base ".nmea" := [x24];
                  String.append hour_base ".ubx" := [xb5; x62] ]} []) in
  res = inl CalledProcessError
  /\ Forall (fun p => files s' !! p
                      = ({[ String.append hour_base ".nmea" := [x24];
                            String.append hour_base ".ubx" := [xb5; x62] ]}
                           : gmap string bytes) !! p)
            (own_paths (snd (hour_pair hour_base))).
Proof.
  apply (logger_rotation_stops_at_first_exception world_with_failing_sha256sum
           calm_world _ hour_base CalledProcessError).
  - vm_compute. eexists. reflexivity.
  - vm_compute. reflexivity.
Defined.

End RotationFacts.
